(** * Verification of the smart_pdf backend (src/backend)

    Shallow embedding of the Python modules [pdf_utils.py], [llm_client.py],
    [app.py] (primary service) and [main.py] (alternate service).

    Conventions.
    - A Python [str] is modelled as a Rocq [string]: a sequence of 8-bit
      characters, i.e. the code points below 256.
    - A Python [int] is a [Z].
    - Python floats (embedding components, similarity scores) are modelled
      as rationals [Q]; arithmetic on them is left abstract where it is
      floating point (cosine similarity, float32 rounding).
    - A Python [dict] is a stdpp [gmap].
    - A raised exception is the [PyErr] branch of [Result]. *)

From Stdlib Require Import Ascii ZArith Lia QArith Sorted.
From Stdlib Require String.
From stdpp Require Import base list gmap strings.

(* ------------------------------------------------------------------ *)
(** ** Python strings *)
(* ------------------------------------------------------------------ *)

Module PyStr.

(** [str.isspace] restricted to code points below 256:
    [\t \n \x0b \x0c \r], [\x1c]..[\x1f], space, [\x85] and [\xa0]. *)
Definition is_space (c : ascii) : bool :=
  let n := nat_of_ascii c in
  ((9 <=? n) && (n <=? 13)) || ((28 <=? n) && (n <=? 32))
  || (n =? 133) || (n =? 160).

(** The loop of [str.split()] (no separator): [cur] is the word being
    read; runs of whitespace separate words, and no empty word is
    produced. *)
Fixpoint split_go (s cur : string) : list string :=
  match s with
  | EmptyString =>
      match cur with EmptyString => [] | _ => [cur] end
  | String c s' =>
      if is_space c then
        match cur with
        | EmptyString => split_go s' EmptyString
        | _ => cur :: split_go s' EmptyString
        end
      else split_go s' (cur +:+ String c EmptyString)
  end.

(** [text.split()] *)
Definition split (s : string) : list string := split_go s EmptyString.

(** [sep.join(xs)] *)
Fixpoint join (sep : string) (xs : list string) : string :=
  match xs with
  | [] => EmptyString
  | [x] => x
  | x :: xs' => x +:+ sep +:+ join sep xs'
  end.

(** [s.lstrip()] *)
Fixpoint lstrip (s : string) : string :=
  match s with
  | EmptyString => EmptyString
  | String c s' => if is_space c then lstrip s' else s
  end.

Definition rev_str (s : string) : string :=
  String.string_of_list_ascii (rev (String.list_ascii_of_string s)).

(** [s.strip()] *)
Definition strip (s : string) : string := rev_str (lstrip (rev_str (lstrip s))).

(** [s.lower()] on code points below 128 ([A]..[Z] become [a]..[z]). *)
Definition lower_char (c : ascii) : ascii :=
  let n := nat_of_ascii c in
  if (65 <=? n) && (n <=? 90) then ascii_of_nat (n + 32) else c.

Fixpoint lower (s : string) : string :=
  match s with
  | EmptyString => EmptyString
  | String c s' => String (lower_char c) (lower s')
  end.

(** [s.endswith(suffix)] *)
Definition endswith (s suffix : string) : bool :=
  let n := String.length s in
  let m := String.length suffix in
  (m <=? n) && String.eqb (String.substring (n - m) m s) suffix.

(** [sub in s] *)
Fixpoint contains (s sub : string) : bool :=
  String.prefix sub s ||
  match s with
  | EmptyString => false
  | String _ s' => contains s' sub
  end.

(** Characters that are not whitespace. *)
Fixpoint no_space (s : string) : bool :=
  match s with
  | EmptyString => true
  | String c s' => negb (is_space c) && no_space s'
  end.

Definition word_ok (w : string) : Prop := w <> EmptyString /\ no_space w = true.

End PyStr.

(* ------------------------------------------------------------------ *)
(** ** pdf_utils.py: chunk_text *)
(* ------------------------------------------------------------------ *)

Module Chunk.
Import PyStr.

(** The [for w in words] loop of [chunk_text]: [current] is the list being
    filled; it is flushed once [len(current) >= max_tokens]. *)
Fixpoint chunk_loop (max_tokens : Z) (words current : list string) : list string :=
  match words with
  | [] =>
      match current with
      | [] => []
      | _ => [join " " current]
      end
  | w :: words' =>
      let current' := current ++ [w] in
      if (max_tokens <=? Z.of_nat (length current'))%Z
      then join " " current' :: chunk_loop max_tokens words' []
      else chunk_loop max_tokens words' current'
  end.

(** [chunk_text(text, max_tokens)] *)
Definition chunk_text (text : string) (max_tokens : Z) : list string :=
  chunk_loop max_tokens (split text) [].

(** The same loop, keeping each chunk as its list of words. *)
Fixpoint chunk_groups (max_tokens : Z) (words current : list string)
  : list (list string) :=
  match words with
  | [] =>
      match current with
      | [] => []
      | _ => [current]
      end
  | w :: words' =>
      let current' := current ++ [w] in
      if (max_tokens <=? Z.of_nat (length current'))%Z
      then current' :: chunk_groups max_tokens words' []
      else chunk_groups max_tokens words' current'
  end.

End Chunk.

(* ------------------------------------------------------------------ *)
(** ** main.py: split_text *)
(* ------------------------------------------------------------------ *)

Module SplitText.

(** Python's normalisation of a slice bound against a sequence of
    length [len]. *)
Definition slice_bound (len i : Z) : Z :=
  if (i <? 0)%Z then Z.max 0 (i + len) else Z.min i len.

(** [text[start:stop]] *)
Definition py_slice (text : string) (start stop : Z) : string :=
  let len := Z.of_nat (String.length text) in
  let s := slice_bound len start in
  let e := slice_bound len stop in
  String.substring (Z.to_nat s) (Z.to_nat (e - s)) text.

(** The [while start < len(text)] loop of [split_text]. [fuel] bounds the
    number of iterations; [None] means the loop has not stopped, which is
    the Python behaviour (no termination) when [chunk_size - chunk_overlap
    <= 0] and the text is not empty. *)
Fixpoint split_loop (fuel : nat) (text : string) (chunk_size chunk_overlap start : Z)
  : option (list string) :=
  match fuel with
  | O => None
  | S fuel' =>
      if (start <? Z.of_nat (String.length text))%Z then
        let end_ := (start + chunk_size)%Z in
        match split_loop fuel' text chunk_size chunk_overlap
                (start + (chunk_size - chunk_overlap))%Z with
        | Some rest => Some (py_slice text start end_ :: rest)
        | None => None
        end
      else Some []
  end.

(** [split_text(text, chunk_size, chunk_overlap)]; [len(text) + 1]
    iterations suffice whenever the step is positive. *)
Definition split_text (text : string) (chunk_size chunk_overlap : Z)
  : option (list string) :=
  split_loop (S (String.length text)) text chunk_size chunk_overlap 0.

End SplitText.

(* ------------------------------------------------------------------ *)
(** ** Exceptions *)
(* ------------------------------------------------------------------ *)

Module Py.

(** A raised exception: a builtin one with its class name and message, or
    FastAPI's [HTTPException(status_code, detail)]. *)
Inductive exn :=
| Exn (cls : string) (msg : string)
| HTTPException (status_code : Z) (detail : string).

(** [str(e)] on the builtin exceptions. *)
Definition str_exn (e : exn) : string :=
  match e with
  | Exn _ msg => msg
  | HTTPException _ detail => detail
  end.

(** A Python computation that returns a value or raises. *)
Inductive Result (A : Type) :=
| Ok (a : A)
| PyErr (e : exn).
Arguments Ok {A} a.
Arguments PyErr {A} e.

Definition bind {A B} (r : Result A) (k : A -> Result B) : Result B :=
  match r with Ok a => k a | PyErr e => PyErr e end.

Definition bytes := list Byte.byte.

(** The argument given to [extract_text_from_pdf], which is dynamically
    typed: a [bytes] object or a [str]. *)
Inductive pyarg :=
| PyBytes (b : bytes)
| PyStrArg (s : string).

Definition newline : string := String "010"%char EmptyString.

End Py.

(* ------------------------------------------------------------------ *)
(** ** pdf_utils.py: extract_text_from_pdf *)
(* ------------------------------------------------------------------ *)

Module Extract.
Import Py PyStr.

(** A page of a parsed PDF: what [page.extract_text()] does on it (return
    a [str], return [None], or raise). *)
Record page := Page { extract_text : Result (option string) }.

Section WithReader.
(** [PdfReader(stream).pages] from PyPDF2: parsing the whole buffer may
    raise; otherwise it gives the list of pages. *)
Variable PdfReader : bytes -> Result (list page).

(** [try: text = page.extract_text() or "" except Exception: text = ""] *)
Definition page_text (p : page) : string :=
  match extract_text p with
  | Ok (Some s) => s
  | Ok None => EmptyString
  | PyErr _ => EmptyString
  end.

(** [extract_text_from_pdf(file_bytes)]: the argument is first wrapped in
    [io.BytesIO], which raises [TypeError] on a [str]. *)
Definition extract_text_from_pdf (file_bytes : pyarg) : Result string :=
  match file_bytes with
  | PyStrArg _ => PyErr (Exn "TypeError" "a bytes-like object is required, not 'str'")
  | PyBytes b =>
      match PdfReader b with
      | PyErr e => PyErr e
      | Ok pages => Ok (join newline (map page_text pages))
      end
  end.

End WithReader.

(** [n] newline characters. *)
Fixpoint newlines (n : nat) : string :=
  match n with
  | O => EmptyString
  | S n' => String "010"%char (newlines n')
  end.

End Extract.

(* ------------------------------------------------------------------ *)
(** ** The process state and the external services *)
(* ------------------------------------------------------------------ *)

Module Backend.
Import Py PyStr.

Definition vec := list Q.

(** What the code calls outside itself. The provider's answers are
    indexed by the number of provider calls made so far, so that they may
    change over time. *)
Class Externals := {
  (** [PdfReader(io.BytesIO(b)).pages] *)
  PdfReader : bytes -> Result (list Extract.page);
  (** [genai.embed_content(...)]: [Some v] is a dict with key
      ['embedding'], [None] a dict without it. *)
  embed_content : nat -> string -> Result (option vec);
  (** [self.text_model.generate_content(prompt).text] *)
  generate_content : nat -> string -> Result string;
  (** [hash(s)] on [str] (fixed within a process) *)
  py_hash : string -> Z;
  (** cosine similarity of two vectors as computed by
      [cosine_similarity_matrix] (floating point) *)
  cosine : vec -> vec -> Q;
  (** rounding of a float to float32 *)
  to_f32 : Q -> Q;
  (** the [n]-th value of [str(uuid.uuid4())] *)
  uuid4 : nat -> string
}.

(** A stored document: ["chunks"] and ["embeddings"] (the rows of the
    float32 array). *)
Record Doc := MkDoc { chunks : list string; embeddings : list vec }.

(** Log events that the claims talk about: provider calls, sleeps and
    warnings / errors. Info and debug lines are not kept. *)
Inductive event :=
| ECallEmbed (text : string)
| ECallGenerate (prompt : string)
| ESleep (seconds : Q)
| EWarning (msg : string)
| EError (msg : string).

(** The globals of the primary process: [DOC_STORE], [llm.response_cache]
    (its values are whatever [generate] returned: a [str] or [None]), the
    provider call counter, the log, and the uuid counter. *)
Record World := MkWorld {
  DOC_STORE : gmap string Doc;
  response_cache : gmap Z (option string);
  provider_calls : nat;
  events : list event;
  uuid_count : nat
}.

Definition set_store (m : gmap string Doc) (w : World) : World :=
  MkWorld m (response_cache w) (provider_calls w) (events w) (uuid_count w).
Definition set_cache (c : gmap Z (option string)) (w : World) : World :=
  MkWorld (DOC_STORE w) c (provider_calls w) (events w) (uuid_count w).
Definition add_event (e : event) (w : World) : World :=
  MkWorld (DOC_STORE w) (response_cache w) (provider_calls w) (events w ++ [e]) (uuid_count w).
Definition tick_calls (w : World) : World :=
  MkWorld (DOC_STORE w) (response_cache w) (S (provider_calls w)) (events w) (uuid_count w).
Definition tick_uuid (w : World) : World :=
  MkWorld (DOC_STORE w) (response_cache w) (provider_calls w) (events w) (S (uuid_count w)).

(** Python code over the globals: it returns or raises, and the changes it
    made before raising stay. *)
Definition M (A : Type) := World -> Result A * World.

Definition retM {A} (a : A) : M A := fun w => (Ok a, w).
Definition bindM {A B} (m : M A) (k : A -> M B) : M B :=
  fun w => match m w with
           | (Ok a, w') => k a w'
           | (PyErr e, w') => (PyErr e, w')
           end.
Definition raise {A} (e : exn) : M A := fun w => (PyErr e, w).
(** [try: m except Exception as e: h(e)] *)
Definition try_except {A} (m : M A) (h : exn -> M A) : M A :=
  fun w => match m w with
           | (Ok a, w') => (Ok a, w')
           | (PyErr e, w') => h e w'
           end.
Definition liftR {A} (r : Result A) : M A := fun w => (r, w).
Definition log (e : event) : M unit := fun w => (Ok tt, add_event e w).
Definition get_store : M (gmap string Doc) := fun w => (Ok (DOC_STORE w), w).
Definition put_store (m : gmap string Doc) : M unit := fun w => (Ok tt, set_store m w).
Definition get_cache : M (gmap Z (option string)) := fun w => (Ok (response_cache w), w).
Definition put_cache (c : gmap Z (option string)) : M unit :=
  fun w => (Ok tt, set_cache c w).

Notation "'let*' x ':=' m 'in' k" := (bindM m (fun x => k))
  (at level 200, x binder, m at level 100, k at level 200).

End Backend.

(* ------------------------------------------------------------------ *)
(** ** llm_client.py: LLMClient *)
(* ------------------------------------------------------------------ *)

Module LLM.
Import Py PyStr Backend.

Section Client.
Context `{Externals}.

(** [genai.embed_content(model=..., content=text, ...)] *)
Definition call_embed (text : string) : M (option vec) :=
  fun w => (embed_content (provider_calls w) text,
            add_event (ECallEmbed text) (tick_calls w)).

(** [self.text_model.generate_content(prompt).text] *)
Definition call_generate (prompt : string) : M string :=
  fun w => (generate_content (provider_calls w) prompt,
            add_event (ECallGenerate prompt) (tick_calls w)).

(** The rate-limit test of [_retry_with_backoff]. *)
Definition is_rate_limit (error_msg : string) : bool :=
  contains error_msg "429" || contains (lower error_msg) "quota"
  || contains (lower error_msg) "rate limit".

(** [initial_delay * (2 ** attempt)] *)
Definition backoff_delay (initial_delay : Q) (attempt : nat) : Q :=
  initial_delay * inject_Z (2 ^ Z.of_nat attempt).

(** The [for attempt in range(max_retries)] loop, from [attempt] on with
    [remaining] iterations left. Falling out of the loop returns [None]. *)
Fixpoint retry_go {A} (func : M A) (max_retries : nat) (initial_delay : Q)
    (attempt remaining : nat) : M (option A) :=
  match remaining with
  | O => retM None
  | S remaining' =>
      try_except (let* a := func in retM (Some a))
        (fun e =>
           if is_rate_limit (str_exn e) && (attempt <? max_retries - 1)
           then
             let* _ := log (EWarning "Rate limited. Retrying") in
             let* _ := log (ESleep (backoff_delay initial_delay attempt)) in
             retry_go func max_retries initial_delay (S attempt) remaining'
           else raise e)
  end.

(** [_retry_with_backoff(func, max_retries, initial_delay)]; the text of
    the warning is shortened (it prints the delay and attempt number). *)
Definition retry_with_backoff {A} (func : M A) (max_retries : nat)
    (initial_delay : Q) : M (option A) :=
  retry_go func max_retries initial_delay 0 max_retries.

(** [result['embedding']] on what [_retry_with_backoff] returned. *)
Definition get_embedding (result : option (option vec)) : Result vec :=
  match result with
  | None => PyErr (Exn "TypeError" "'NoneType' object is not subscriptable")
  | Some None => PyErr (Exn "KeyError" "'embedding'")
  | Some (Some v) => Ok v
  end.

(** [[0.0] * 768] *)
Definition zero_vector : vec := repeat 0%Q 768.

(** One iteration of the loop of [embed]. *)
Definition embed_one (text : string) : M vec :=
  try_except
    (let* result := retry_with_backoff (call_embed text) 3 1 in
     liftR (get_embedding result))
    (fun e =>
       let* _ := log (EWarning ("Embedding error: " +:+ str_exn e +:+ ". Using zero vector.")) in
       retM zero_vector).

(** [embed(texts)] *)
Fixpoint embed (texts : list string) : M (list vec) :=
  match texts with
  | [] => retM []
  | text :: texts' =>
      let* v := embed_one text in
      let* vs := embed texts' in
      retM (v :: vs)
  end.

(** The embedding policy in the words of the spec, to be compared with
    [embed_one]: one text is tried at most [left] more times, starting at
    attempt [attempt] and provider call number [m]. A vector ends the
    attempts; a rate-limited failure before the third attempt logs a
    warning and sleeps [1.0 * 2 ** attempt] seconds before the next
    attempt; any other failure logs a warning and gives the zero vector.
    The result is the vector, the log lines and the number of calls. *)
Fixpoint spec_embed_attempts (text : string) (attempt left m : nat)
    : vec * list event * nat :=
  match left with
  | O => (zero_vector,
          [EWarning ("Embedding error: " +:+ "'NoneType' object is not subscriptable"
                     +:+ ". Using zero vector.")], O)
  | S left' =>
      match embed_content m text with
      | Ok (Some v) => (v, [ECallEmbed text], 1%nat)
      | Ok None =>
          (zero_vector,
           [ECallEmbed text;
            EWarning ("Embedding error: " +:+ "'embedding'" +:+ ". Using zero vector.")], 1%nat)
      | PyErr e =>
          if is_rate_limit (str_exn e) && (attempt <? 2)%nat then
            let '(v, evs, k) := spec_embed_attempts text (S attempt) left' (S m) in
            (v, ECallEmbed text :: EWarning "Rate limited. Retrying"
                  :: ESleep (1 * inject_Z (2 ^ Z.of_nat attempt)) :: evs, S k)
          else
            (zero_vector,
             [ECallEmbed text;
              EWarning ("Embedding error: " +:+ str_exn e +:+ ". Using zero vector.")], 1%nat)
      end
  end.

(** The spec's [embed]: each text in turn gets 3 attempts from attempt 0;
    the vectors, the log lines and the number of provider calls. *)
Fixpoint spec_embed (texts : list string) (m : nat) : list vec * list event * nat :=
  match texts with
  | [] => ([], [], O)
  | t :: ts =>
      let '(v, evs, k) := spec_embed_attempts t 0 3 m in
      let '(vs, evs', k') := spec_embed ts (m + k) in
      (v :: vs, evs ++ evs', (k + k')%nat)
  end.

(** [generate_func] inside [generate]. *)
Definition generate_func (system_prompt user_prompt : string) : M string :=
  let full_prompt := system_prompt +:+ newline +:+ newline +:+ user_prompt in
  let* text := call_generate full_prompt in
  retM (match text with EmptyString => "No response generated" | _ => text end).

(** [generate(system_prompt, user_prompt)]; [None] is Python's [None]. *)
Definition generate (system_prompt user_prompt : string) : M (option string) :=
  let cache_key := py_hash (system_prompt +:+ user_prompt) in
  let* cache := get_cache in
  match cache !! cache_key with
  | Some cached => retM cached
  | None =>
      try_except
        (let* result := retry_with_backoff (generate_func system_prompt user_prompt) 4 2 in
         let* cache := get_cache in
         let* _ := put_cache (<[cache_key := result]> cache) in
         retM result)
        (fun e =>
           let* _ := log (EError ("Generation error: " +:+ str_exn e)) in
           let error_response := "Error: " +:+ str_exn e in
           let* cache := get_cache in
           let* _ := put_cache (<[cache_key := Some error_response]> cache) in
           retM (Some error_response))
  end.

End Client.
End LLM.

(* ------------------------------------------------------------------ *)
(** ** pdf_utils.py: top_k_chunks *)
(* ------------------------------------------------------------------ *)

Module TopK.
Import Py Backend.

(** Python [l[:k]] *)
Definition py_take {A} (k : Z) (l : list A) : list A :=
  take (Z.to_nat (SplitText.slice_bound (Z.of_nat (length l)) k)) l.

(** Insert index [i] after every index whose key is [<=] its own. *)
Fixpoint insert_idx (key : nat -> Q) (i : nat) (l : list nat) : list nat :=
  match l with
  | [] => [i]
  | j :: l' => if Qle_bool (key j) (key i) then j :: insert_idx key i l' else i :: l
  end.

(** [np.argsort(xs)]: the indices of [xs] in ascending order of their
    value, as a stable insertion sort. (numpy's default quicksort orders
    equal values in an unspecified way.) *)
Definition argsort (xs : list Q) : list nat :=
  fold_left (fun acc i => insert_idx (fun j => nth j xs 0%Q) i acc)
            (seq 0 (length xs)) [].

Fixpoint mapR {A B} (f : A -> Result B) (l : list A) : Result (list B) :=
  match l with
  | [] => Ok []
  | x :: l' => bind (f x) (fun y => bind (mapR f l') (fun ys => Ok (y :: ys)))
  end.

Section WithExternals.
Context `{Externals}.

(** [cosine_similarity_matrix(query_emb[None, :], doc_embs)[0]]: the
    matrix product needs the query and the rows to have one length. *)
Definition sims_row (query_emb : vec) (doc_embs : list vec) : Result (list Q) :=
  if forallb (fun r => length r =? length query_emb) doc_embs
  then Ok (map (cosine query_emb) doc_embs)
  else PyErr (Exn "ValueError" "matmul: Input operand 1 has a mismatch in its core dimension 0").

(** [top_k_chunks(query_emb, doc_embs, chunks, k)] *)
Definition top_k_chunks (query_emb : vec) (doc_embs : list vec)
    (chunks : list string) (k : Z) : Result (list (string * Q)) :=
  bind (sims_row query_emb doc_embs) (fun sims =>
    let idxs := py_take k (argsort (map Qopp sims)) in
    mapR (fun i => match nth_error chunks i with
                   | Some c => Ok (c, nth i sims 0%Q)
                   | None => PyErr (Exn "IndexError" "list index out of range")
                   end) idxs).

End WithExternals.
End TopK.

(* ------------------------------------------------------------------ *)
(** ** app.py: the primary service *)
(* ------------------------------------------------------------------ *)

Module App.
Import Py PyStr Backend.

Inductive request :=
| Upload (filename : string) (content : bytes)
| Ask (doc_id question : string)
| Summary (doc_id : string)
| Search (doc_id query : string)
| Root.

Inductive response :=
| UploadResponse (doc_id : string) (num_chunks : Z)
| AskResponse (answer : string)
| SummaryResponse (summary : string)
| SearchResponse (hits : list (string * Q))
| RootResponse.

Definition nl2 : string := newline +:+ newline.

(** [np.array(rows, dtype="float32")] on a list of rows: the rows must
    have one length. *)
Definition np_array_f32 `{Externals} (rows : list vec) : Result (list vec) :=
  match rows with
  | [] => Ok []
  | r :: _ =>
      if forallb (fun x => length x =? length r) rows
      then Ok (map (map to_f32) rows)
      else PyErr (Exn "ValueError" "setting an array element with a sequence. The requested array has an inhomogeneous shape after 1 dimensions.")
  end.

(** [x.strip()] on the value returned by [generate]. *)
Definition strip_answer (r : option string) : Result string :=
  match r with
  | Some s => Ok (strip s)
  | None => PyErr (Exn "AttributeError" "'NoneType' object has no attribute 'strip'")
  end.

Definition ask_system_prompt : string :=
  "You are an AI assistant that answers questions based ONLY on the provided PDF context. If the answer is not in the context, say you don't know.".

Definition summary_system_prompt : string :=
  "You are an expert summarizer. Create a concise, structured summary of the provided PDF content. Use headings and bullet points.".

Section Handlers.
Context `{Externals}.

(** The [try: ... except Exception as e: logger.error(...); raise] around
    every handler body. *)
Definition log_and_reraise {A} (m : M A) : M A :=
  try_except m (fun e => let* _ := log (EError (str_exn e)) in raise e).

(** [uuid.uuid4()] *)
Definition new_uuid : M string :=
  fun w => (Ok (uuid4 (uuid_count w)), tick_uuid w).

(** [upload_pdf(file)] *)
Definition upload_pdf (filename : string) (content : bytes) : M response :=
  if negb (endswith (lower filename) ".pdf") then
    let* _ := log (EError "Invalid file format") in
    raise (HTTPException 400 "Only PDF files are supported")
  else log_and_reraise (
    let* text := liftR (Extract.extract_text_from_pdf PdfReader (PyBytes content)) in
    match strip text with
    | EmptyString =>
        let* _ := log (EError "Extracted text is empty") in
        raise (HTTPException 400 "Could not extract text from PDF")
    | _ =>
        let chunks := Chunk.chunk_text text 400 in
        match chunks with
        | [] =>
            let* _ := log (EError "No chunks created from PDF text") in
            raise (HTTPException 400 "No chunks created")
        | _ =>
            let* embeddings := LLM.embed chunks in
            let* emb_array := liftR (np_array_f32 embeddings) in
            let* doc_id := new_uuid in
            let* store := get_store in
            let* _ := put_store (<[doc_id := MkDoc chunks emb_array]> store) in
            retM (UploadResponse doc_id (Z.of_nat (length chunks)))
        end
    end).

(** [np.array(q_emb_list[0], dtype="float32")] *)
Definition first_f32 (l : list vec) : Result vec :=
  match l with
  | v :: _ => Ok (map to_f32 v)
  | [] => PyErr (Exn "IndexError" "list index out of range")
  end.

(** [ask_question(body)] *)
Definition ask_question (doc_id question : string) : M response :=
  let* store := get_store in
  match store !! doc_id with
  | None =>
      let* _ := log (EError "Doc ID not found") in
      raise (HTTPException 404 "Unknown doc_id")
  | Some d => log_and_reraise (
      let* q_emb_list := LLM.embed [question] in
      let* q_emb := liftR (first_f32 q_emb_list) in
      let* top_chunks := liftR (TopK.top_k_chunks q_emb (embeddings d) (chunks d) 5) in
      let context := join nl2 (map fst top_chunks) in
      let user_prompt := "Context:" +:+ newline +:+ context +:+ nl2 +:+ "Question: "
                         +:+ question +:+ nl2 +:+ "Answer in detail:" in
      let* answer := LLM.generate ask_system_prompt user_prompt in
      let* a := liftR (strip_answer answer) in
      retM (AskResponse a))
  end.

(** [summarize(body)] *)
Definition summarize (doc_id : string) : M response :=
  let* store := get_store in
  match store !! doc_id with
  | None =>
      let* _ := log (EError "Doc ID not found") in
      raise (HTTPException 404 "Unknown doc_id")
  | Some d => log_and_reraise (
      let max_chunks := 10%nat in
      let context := join nl2 (take max_chunks (chunks d)) in
      let user_prompt := "PDF Content:" +:+ newline +:+ context +:+ nl2
                         +:+ "Write a high-level summary:" in
      let* summary := LLM.generate summary_system_prompt user_prompt in
      let* s := liftR (strip_answer summary) in
      retM (SummaryResponse s))
  end.

(** [search(body)] *)
Definition search (doc_id query : string) : M response :=
  let* store := get_store in
  match store !! doc_id with
  | None =>
      let* _ := log (EError "Doc ID not found") in
      raise (HTTPException 404 "Unknown doc_id")
  | Some d => log_and_reraise (
      let* q_emb_list := LLM.embed [query] in
      let* q_emb := liftR (first_f32 q_emb_list) in
      let* top_chunks := liftR (TopK.top_k_chunks q_emb (embeddings d) (chunks d) 5) in
      retM (SearchResponse top_chunks))
  end.

(** The route table. *)
Definition handle (req : request) : M response :=
  match req with
  | Upload filename content => upload_pdf filename content
  | Ask doc_id question => ask_question doc_id question
  | Summary doc_id => summarize doc_id
  | Search doc_id query => search doc_id query
  | Root => retM RootResponse
  end.

End Handlers.

(** The state at start-up: [DOC_STORE = {}] and an empty cache. *)
Definition init_world : World := MkWorld ∅ ∅ 0 [] 0.

(** The states the process can reach by handling requests one by one. *)
Inductive reachable `{Externals} : World -> Prop :=
| reach_init : reachable init_world
| reach_step w req : reachable w -> reachable (snd (handle req w)).

End App.

(* ------------------------------------------------------------------ *)
(** ** main.py: the alternate single-document service *)
(* ------------------------------------------------------------------ *)

Module Alt.
Import Py PyStr Backend.

(** Modelled from the spec: [vector_store.VectorStore] (vector_store.py is
    not among the sources). It holds the chunks of the current document;
    [clear()] discards them and [add_text(chunks)] appends. *)
Record VectorStore := MkVectorStore { vs_chunks : list string }.

Definition vs_clear (s : VectorStore) : VectorStore := MkVectorStore [].
Definition vs_add_text (chunks : list string) (s : VectorStore) : VectorStore :=
  MkVectorStore (vs_chunks s ++ chunks).

(** The globals of the alternate process that [/upload] touches: the
    store and the files on disk. *)
Record AltWorld := MkAltWorld { store : VectorStore; files : gmap string bytes }.

(** What the handler ends with: a JSON body, a raised exception, or no
    answer at all (the [while] loop of [split_text] does not stop). *)
Inductive outcome :=
| Returned (message filename : string)
| Raised (e : exn)
| NoReturn.

Section Upload.
Context `{Externals}.

(** [upload_pdf(file)]; [temp_name] is the path [NamedTemporaryFile]
    picks. *)
Definition upload_pdf (temp_name filename : string) (content : bytes)
    (w : AltWorld) : outcome * AltWorld :=
  if negb (endswith (lower filename) ".pdf") then
    (Raised (HTTPException 400 "Invalid file type. Please upload a PDF."), w)
  else
    (* with tempfile.NamedTemporaryFile(delete=False, suffix=".pdf"): write *)
    let temp_file_path := temp_name in
    let w1 := MkAltWorld (store w) (<[temp_file_path := content]> (files w)) in
    (* the body of the try *)
    let '(r, w2) :=
      match Extract.extract_text_from_pdf PdfReader (PyStrArg temp_file_path) with
      | PyErr e =>
          (Raised (HTTPException 500 ("An error occurred: " +:+ str_exn e)), w1)
      | Ok text =>
          match SplitText.split_text text 1000 200 with
          | None => (NoReturn, w1)
          | Some chunks =>
              (Returned "PDF processed successfully" filename,
               MkAltWorld (vs_add_text chunks (vs_clear (store w1))) (files w1))
          end
      end in
    match r with
    | NoReturn => (r, w2)
    | _ =>
        (* finally: os.unlink(temp_file_path) if it exists *)
        (r, MkAltWorld (store w2) (delete temp_file_path (files w2)))
    end.

End Upload.

(** Modelled from the spec: [VectorStore()] starts with no chunks, and
    [is_ready()] reports whether any chunks are stored. *)
Definition vs_new : VectorStore := MkVectorStore [].
Definition vs_is_ready (s : VectorStore) : bool :=
  match vs_chunks s with [] => false | _ => true end.
(** Modelled from the spec: [get_all_chunks()] *)
Definition vs_get_all_chunks (s : VectorStore) : list string := vs_chunks s.

Section Endpoints.
(** Modelled from the spec: [store.search(query, top_k)] and the legacy
    helpers [ai_utils.ask_gemini] and [ai_utils.summarize_text]
    (vector_store.py and ai_utils.py are not among the sources). *)
Variable vs_search : VectorStore -> string -> Z -> list string.
Variable ask_gemini : string -> string -> Result string.
Variable summarize_text : string -> Result string.

Definition not_ready_error : exn :=
  HTTPException 400 "No PDF has been processed yet. Please upload a PDF first.".

(** [ask_question_endpoint(request)]: returns [{"answer": answer}]. *)
Definition ask_question_endpoint (question : string) (w : AltWorld) : Result string :=
  if negb (vs_is_ready (store w)) then PyErr not_ready_error
  else
    let context_chunks := vs_search (store w) question 3 in
    let context := join (newline +:+ newline) context_chunks in
    ask_gemini context question.

(** [summary_endpoint()]: returns [{"summary": summary}]. *)
Definition summary_endpoint (w : AltWorld) : Result string :=
  if negb (vs_is_ready (store w)) then PyErr not_ready_error
  else
    let full_text := join " " (vs_get_all_chunks (store w)) in
    summarize_text (SplitText.py_slice full_text 0 20000).

End Endpoints.

(** The states of the alternate process: it starts with an empty store
    and only [/upload] changes its globals ([/ask] and [/summary] only
    read the store). *)
Inductive alt_reachable `{Externals} : AltWorld -> Prop :=
| alt_init files0 : alt_reachable (MkAltWorld vs_new files0)
| alt_step w temp_name filename content :
    alt_reachable w -> alt_reachable (snd (upload_pdf temp_name filename content w)).

End Alt.

(* ------------------------------------------------------------------ *)
(** ** A sample environment, for evaluating the model *)
(* ------------------------------------------------------------------ *)

Module Sample.
Import Py Backend.

Fixpoint sample_id (n : nat) : string :=
  match n with
  | O => "u"
  | S n' => String "a"%char (sample_id n')
  end.

(** One page of text; the first embedding call is rate-limited, the later
    ones answer [[1; 0]]; generation always answers. *)
Definition sample : Externals := {|
  PdfReader := fun _ => Ok [Extract.Page (Ok (Some "hello world"))];
  embed_content := fun n _ =>
    if (n =? 0)%nat then PyErr (Exn "ResourceExhausted" "429 Resource has been exhausted")
    else Ok (Some [1%Q; 0%Q]);
  generate_content := fun _ _ => Ok "an answer";
  py_hash := fun s => Z.of_nat (String.length s);
  cosine := fun _ _ => 0%Q;
  to_f32 := fun x => x;
  uuid4 := sample_id
|}.

End Sample.

(* ================================================================== *)
(** * Proofs *)
(* ================================================================== *)

Module StrFacts.
Import PyStr.

(** stdpp makes [String.append] opaque to [simpl]; its two equations. *)
Lemma app_nil_l_str (b : string) : EmptyString +:+ b = b.
Proof. reflexivity. Qed.

Lemma app_cons_str (c : ascii) (a b : string) :
  String c a +:+ b = String c (a +:+ b).
Proof. reflexivity. Qed.

Lemma app_assoc_str (a b c : string) : (a +:+ b) +:+ c = a +:+ (b +:+ c).
Proof. induction a as [|x a IH]; [done|]. rewrite !app_cons_str. by rewrite IH. Qed.

Lemma app_nil_r_str (a : string) : a +:+ EmptyString = a.
Proof. induction a as [|x a IH]; [done|]. rewrite app_cons_str. by rewrite IH. Qed.

Lemma no_space_app (a b : string) :
  no_space (a +:+ b) = no_space a && no_space b.
Proof.
  induction a as [|x a IH]; [done|]. rewrite app_cons_str. simpl.
  rewrite IH. by destruct (is_space x), (no_space a).
Qed.

Lemma split_go_word (w s cur : string) :
  no_space w = true -> split_go (w +:+ s) cur = split_go s (cur +:+ w).
Proof.
  revert cur. induction w as [|c w IH]; intros cur Hw.
  - by rewrite app_nil_l_str, app_nil_r_str.
  - rewrite app_cons_str. simpl. simpl in Hw. apply andb_prop in Hw as [Hc Hw].
    apply negb_true_iff in Hc. rewrite Hc, IH by done.
    by rewrite app_assoc_str.
Qed.

Lemma split_go_words (s cur : string) :
  no_space cur = true -> Forall word_ok (split_go s cur).
Proof.
  revert cur. induction s as [|c s IH]; intros cur Hcur; simpl.
  - destruct cur; constructor; [|constructor]. split; [done|exact Hcur].
  - destruct (is_space c) eqn:Hc.
    + destruct cur as [|c' cur'].
      * by apply IH.
      * constructor; [split; [done|exact Hcur]|]. by apply IH.
    + apply IH. rewrite no_space_app, Hcur. simpl. by rewrite Hc.
Qed.

Lemma split_words (s : string) : Forall word_ok (split s).
Proof. by apply split_go_words. Qed.

(** Joining words with single spaces and splitting again gives the words
    back. *)
Lemma split_join (ws : list string) :
  Forall word_ok ws -> split (join " " ws) = ws.
Proof.
  unfold split. induction ws as [|w ws IH]; intros Hws; [done|].
  inversion Hws as [|? ? [Hne Hw] Hrest]; subst.
  destruct ws as [|w2 ws].
  - simpl. rewrite <- (app_nil_r_str w) at 1.
    rewrite split_go_word by done. simpl. by destruct w.
  - change (join " " (w :: w2 :: ws)) with (w +:+ (String " " (join " " (w2 :: ws)))).
    rewrite split_go_word by done. simpl.
    destruct w as [|c w']; [done|]. f_equal. by apply IH.
Qed.

End StrFacts.

Module ChunkFacts.
Import PyStr StrFacts Chunk.

Example chunk_text_850 :
  map (fun c => length (split c))
      (chunk_text (join " " (repeat "w" 850)) 400) = [400; 400; 50]%nat.
Proof. vm_compute. reflexivity. Qed.

Lemma chunk_loop_groups (m : Z) (ws cur : list string) :
  chunk_loop m ws cur = map (join " ") (chunk_groups m ws cur).
Proof.
  revert cur. induction ws as [|w ws IH]; intros cur; simpl.
  - by destruct cur.
  - destruct (_ <=? _)%Z; simpl; by rewrite IH.
Qed.

Lemma chunk_groups_concat (m : Z) (ws cur : list string) :
  concat (chunk_groups m ws cur) = cur ++ ws.
Proof.
  revert cur. induction ws as [|w ws IH]; intros cur; simpl.
  - destruct cur; simpl; by rewrite ?app_nil_r.
  - destruct (_ <=? _)%Z; simpl; rewrite IH, <- app_assoc; done.
Qed.

Lemma removelast_cons {A} (x : A) (l : list A) :
  removelast (x :: l) = match l with [] => [] | _ => x :: removelast l end.
Proof. reflexivity. Qed.

Lemma chunk_groups_full (m : Z) (ws cur : list string) :
  (1 <= m)%Z -> (Z.of_nat (length cur) < m)%Z ->
  Forall (fun g => Z.of_nat (length g) = m) (removelast (chunk_groups m ws cur)).
Proof.
  revert cur. induction ws as [|w ws IH]; intros cur Hm Hcur; simpl.
  - destruct cur; constructor.
  - destruct (m <=? Z.of_nat (length (cur ++ [w])))%Z eqn:Hle.
    + rewrite removelast_cons.
      destruct (chunk_groups m ws []) eqn:Hg; [constructor|].
      constructor.
      * apply Z.leb_le in Hle. rewrite length_app in Hle. simpl in Hle.
        rewrite length_app. simpl. lia.
      * rewrite <- Hg. apply IH; simpl; lia.
    + apply IH; [done|]. apply Z.leb_gt in Hle. done.
Qed.

Lemma removelast_map {A B} (f : A -> B) (l : list A) :
  removelast (map f l) = map f (removelast l).
Proof.
  induction l as [|x l IH]; [done|]. simpl map. rewrite !removelast_cons.
  destruct l; [done|]. simpl in IH |- *. by rewrite IH.
Qed.

Lemma in_removelast {A} (x : A) (l : list A) : In x (removelast l) -> In x l.
Proof.
  induction l as [|y l IH]; [done|]. rewrite removelast_cons.
  destruct l; [done|]. intros [->|H]; [by left|right; auto].
Qed.

(** Every chunk of [chunk_groups] holds words of the input. *)
Lemma chunk_groups_words (m : Z) (ws : list string) :
  Forall word_ok ws ->
  Forall (Forall word_ok) (chunk_groups m ws []).
Proof.
  intros Hws. apply List.Forall_forall. intros g Hg. apply List.Forall_forall.
  intros w Hw. rewrite List.Forall_forall in Hws. apply Hws.
  change ws with ([] ++ ws). rewrite <- (chunk_groups_concat m ws []).
  apply in_concat. eauto.
Qed.

Lemma split_chunk_text (text : string) (m : Z) :
  map split (chunk_text text m) = chunk_groups m (split text) [].
Proof.
  unfold chunk_text. rewrite chunk_loop_groups, map_map.
  rewrite <- (map_id (chunk_groups m (split text) [])) at 2.
  apply map_ext_in. intros g Hg. apply split_join.
  pose proof (chunk_groups_words m (split text) (split_words text)) as H.
  rewrite List.Forall_forall in H. auto.
Qed.

(** C1: for [N >= 1], every chunk of [chunk_text text N] but the last has
    exactly [N] words, the chunks' words in order are the words of
    [text.split()], and the empty text gives no chunk. *)
Theorem chunk_text_partition (text : string) (N : Z) :
  (1 <= N)%Z ->
  (forall c, In c (removelast (chunk_text text N)) ->
             Z.of_nat (length (split c)) = N) /\
  concat (map split (chunk_text text N)) = split text /\
  (text = EmptyString -> chunk_text text N = []).
Proof.
  intros HN. split; [|split].
  - intros c Hc.
    assert (Hin : In (split c) (removelast (map split (chunk_text text N)))).
    { rewrite removelast_map. by apply in_map. }
    rewrite split_chunk_text in Hin.
    pose proof (chunk_groups_full N (split text) [] HN) as H.
    rewrite List.Forall_forall in H. apply H; [simpl; lia|done].
  - by rewrite split_chunk_text, chunk_groups_concat.
  - intros ->. reflexivity.
Qed.

Lemma chunk_text_partition_witness :
  (1 <= 400)%Z /\
  concat (map split (chunk_text "a b  c" 400)) = split "a b  c".
Proof.
  split; [lia|]. apply (chunk_text_partition "a b  c" 400). lia.
Defined.

End ChunkFacts.

Module SplitFacts.
Import SplitText.

Example split_text_2000 :
  option_map (map String.length)
    (split_text (String.string_of_list_ascii (repeat "a"%char 2000)) 1000 200)
  = Some [1000; 1000; 400]%nat.
Proof. vm_compute. reflexivity. Qed.

Example split_text_step0 : split_text "abc" 2 2 = None.
Proof. reflexivity. Qed.

Lemma split_loop_default (f : nat) (text : string) (a : Z) :
  (0 <= a)%Z -> (1 <= f)%nat ->
  (Z.of_nat (String.length text) <= a + 800 * (Z.of_nat f - 1))%Z ->
  exists cs, split_loop f text 1000 200 a = Some cs /\
    (Z.of_nat (length cs) = ((Z.max 0 (Z.of_nat (String.length text) - a)) + 799) / 800)%Z /\
    (forall i, (i < length cs)%nat ->
       nth i cs EmptyString = py_slice text (a + 800 * Z.of_nat i)%Z (a + 800 * Z.of_nat i + 1000)%Z).
Proof.
  revert a. induction f as [|f IH]; intros a Ha Hf Hlen; [lia|].
  simpl. destruct (a <? Z.of_nat (String.length text))%Z eqn:Hlt.
  - apply Z.ltb_lt in Hlt.
    destruct (IH (a + (1000 - 200))%Z) as (cs & Hcs & Hl & Hn); [lia|lia|lia|].
    rewrite Hcs. eexists; split; [reflexivity|]. split.
    + simpl length. rewrite Nat2Z.inj_succ, Hl.
      remember (Z.of_nat (String.length text)) as L eqn:EL. clear - Hlt.
      rewrite (Z.max_r 0 (L - a)) by lia.
      destruct (Z.le_gt_cases (L - (a + (1000 - 200))) 0) as [Hs|Hs].
      * rewrite Z.max_l by lia.
        assert (Hq : ((L - a + 799) / 800 = 1)%Z) by (symmetry; apply Z.div_unique with (L - a - 1)%Z; lia).
        rewrite Hq. reflexivity.
      * rewrite Z.max_r by lia.
        replace (L - a + 799)%Z with ((L - (a + (1000 - 200)) + 799) + 1 * 800)%Z by lia.
        rewrite Z.div_add by lia. lia.
    + intros [|i] Hi; simpl.
      * f_equal; lia.
      * rewrite Hn by (simpl in Hi; lia). f_equal; lia.
  - apply Z.ltb_ge in Hlt. exists []. split; [done|]. split; [|simpl; lia].
    simpl. rewrite Z.max_l by lia. reflexivity.
Qed.

Lemma py_slice_get (text : string) (a p : Z) :
  (0 <= a)%Z -> (a <= p)%Z -> (p < a + 1000)%Z ->
  (p < Z.of_nat (String.length text))%Z ->
  String.get (Z.to_nat (p - a)) (py_slice text a (a + 1000))
  = String.get (Z.to_nat p) text.
Proof.
  intros Ha Hap Hp Hl. unfold py_slice, slice_bound.
  destruct (a <? 0)%Z eqn:E1; [apply Z.ltb_lt in E1; lia|].
  destruct (a + 1000 <? 0)%Z eqn:E2; [apply Z.ltb_lt in E2; lia|].
  rewrite String.substring_correct1 by lia. f_equal. lia.
Qed.

(** C10: with the default [chunk_size = 1000] and [chunk_overlap = 200],
    [split_text] stops; the empty text gives no chunk; chunk [i] is the
    slice starting at [800 * i] (so the first starts at [0] and each next
    one [800] characters later); and every character of the text lies in
    some chunk, at the matching offset. *)
Theorem split_text_default_cover (text : string) :
  exists cs, split_text text 1000 200 = Some cs /\
    (text = EmptyString -> cs = []) /\
    (Z.of_nat (length cs) = (Z.of_nat (String.length text) + 799) / 800)%Z /\
    (forall i, (i < length cs)%nat ->
       nth i cs EmptyString
       = py_slice text (800 * Z.of_nat i)%Z (800 * Z.of_nat i + 1000)%Z) /\
    (forall p, (p < String.length text)%nat ->
       exists i, (i < length cs)%nat /\
         (800 * i <= p < 800 * i + 1000)%nat /\
         String.get (p - 800 * i) (nth i cs EmptyString) = String.get p text).
Proof.
  destruct (split_loop_default (S (String.length text)) text 0) as (cs & Hcs & Hl & Hn);
    [lia|lia|lia|].
  exists cs. split; [exact Hcs|]. split; [|split; [|split]].
  - intros ->. simpl in Hcs. by injection Hcs.
  - rewrite Hl. f_equal. lia.
  - intros i Hi. rewrite Hn by done. f_equal; lia.
  - intros p Hp. exists (p / 800)%nat.
    assert (Hd : (800 * (p / 800) <= p < 800 * (p / 800) + 800)%nat).
    { pose proof (Nat.div_mod p 800 ltac:(lia)). pose proof (Nat.mod_upper_bound p 800 ltac:(lia)). lia. }
    assert (Hi : (p / 800 < length cs)%nat).
    { apply Nat2Z.inj_lt. rewrite Hl, Z.max_r, Z.sub_0_r by lia.
      apply Z.lt_le_trans with (Z.of_nat (p / 800) + 1)%Z; [lia|].
      apply Z.div_le_lower_bound; lia. }
    split; [done|split; [lia|]].
    + rewrite Hn by done. rewrite Z.add_0_l.
      pose proof (py_slice_get text (800 * Z.of_nat (p / 800)) (Z.of_nat p)) as G.
      rewrite Nat2Z.id in G. rewrite <- G by lia. f_equal. lia.
Qed.

End SplitFacts.

Module ExtractFacts.
Import Py PyStr Extract.

Lemma join_empty_pages (l : list string) :
  Forall (fun s => s = EmptyString) l ->
  join newline l = newlines (length l - 1).
Proof.
  induction l as [|s l IH]; intros H; [done|].
  inversion H as [|? ? -> Hl]; subst.
  destruct l as [|s' l]; [done|].
  change (join newline (EmptyString :: s' :: l))
    with (EmptyString +:+ newline +:+ join newline (s' :: l)).
  rewrite IH by done. simpl. by rewrite Nat.sub_0_r.
Qed.

(** C4 (as stated, refuted): a two-page document whose first page raises
    and whose second page has no text gives ["\n"], not the empty string. *)
Lemma extract_no_text_counterexample :
  let reader := fun _ : bytes =>
    Ok [Page (PyErr (Exn "ValueError" "bad page")); Page (Ok None)] in
  Forall (fun p => page_text p = EmptyString)
    [Page (PyErr (Exn "ValueError" "bad page")); Page (Ok None)] /\
  extract_text_from_pdf reader (PyBytes []) = Ok newline /\
  newline <> EmptyString.
Proof.
  split; [repeat constructor|]. split; [reflexivity|discriminate].
Qed.

(** C4 (amended): on a buffer that parses into [pages], the result is the
    pages' texts joined with newlines, a page whose extraction raises
    contributing the empty string; when no page has text, the result is
    [len(pages) - 1] newline characters. *)
Theorem extract_text_pages (reader : bytes -> Result (list page))
    (b : bytes) (pages : list page) :
  reader b = Ok pages ->
  extract_text_from_pdf reader (PyBytes b) = Ok (join newline (map page_text pages)) /\
  (forall p e, In p pages -> extract_text p = PyErr e -> page_text p = EmptyString) /\
  (Forall (fun p => page_text p = EmptyString) pages ->
   extract_text_from_pdf reader (PyBytes b) = Ok (newlines (length pages - 1))).
Proof.
  intros Hb. unfold extract_text_from_pdf. rewrite Hb.
  split; [done|]. split.
  - intros p e _ He. unfold page_text. by rewrite He.
  - intros Hall. f_equal. rewrite join_empty_pages.
    + by rewrite length_map.
    + apply Forall_map. exact Hall.
Qed.

Lemma extract_text_pages_witness :
  (fun _ : bytes => Ok [Page (Ok (Some "a")); Page (PyErr (Exn "E" "x"))]) []
    = Ok [Page (Ok (Some "a")); Page (PyErr (Exn "E" "x"))] /\
  extract_text_from_pdf (fun _ => Ok [Page (Ok (Some "a")); Page (PyErr (Exn "E" "x"))])
    (PyBytes []) = Ok (join newline ["a"; EmptyString]).
Proof.
  split; [reflexivity|].
  apply (extract_text_pages (fun _ => Ok [Page (Ok (Some "a")); Page (PyErr (Exn "E" "x"))])
           [] [Page (Ok (Some "a")); Page (PyErr (Exn "E" "x"))]).
  reflexivity.
Defined.

End ExtractFacts.

Module AltFacts.
Import Py PyStr Backend Alt.

(** C2: every [.pdf] upload to the alternate service ends in HTTP 500:
    [extract_text_from_pdf] is given the temporary file's path, a [str],
    and [io.BytesIO] rejects it. The store is left as it was and the
    temporary file is removed. *)
Theorem alt_upload_always_500 `{Externals} (temp_name filename : string)
    (content : bytes) (w : AltWorld) :
  endswith (lower filename) ".pdf" = true ->
  upload_pdf temp_name filename content w =
    (Raised (HTTPException 500
       "An error occurred: a bytes-like object is required, not 'str'"),
     MkAltWorld (store w) (delete temp_name (<[temp_name := content]> (files w)))).
Proof.
  intros Hpdf. unfold upload_pdf. rewrite Hpdf. reflexivity.
Qed.

Lemma alt_upload_always_500_witness :
  endswith (lower "report.PDF") ".pdf" = true /\
  @upload_pdf Sample.sample "/tmp/tmpx.pdf" "report.PDF" [Byte.x25]
    (MkAltWorld (MkVectorStore ["old"]) ∅) =
    (Raised (HTTPException 500
       "An error occurred: a bytes-like object is required, not 'str'"),
     MkAltWorld (MkVectorStore ["old"])
       (delete "/tmp/tmpx.pdf" (<["/tmp/tmpx.pdf" := [Byte.x25]]> ∅))).
Proof.
  split; [reflexivity|].
  apply (@alt_upload_always_500 Sample.sample "/tmp/tmpx.pdf" "report.PDF" [Byte.x25]
           (MkAltWorld (MkVectorStore ["old"]) ∅)).
  reflexivity.
Defined.

End AltFacts.

Module LLMFacts.
Import Py PyStr Backend LLM.

Section Frame.
Context `{Externals}.

(** [m] leaves [DOC_STORE], the response cache and the uuid counter
    alone, makes at most [k] provider calls, and its result satisfies [Qa]
    when it returns and [Qe] when it raises. *)
Definition frame {A} (m : M A) (k : nat) (Qa : A -> Prop) (Qe : exn -> Prop) : Prop :=
  forall w,
    DOC_STORE (snd (m w)) = DOC_STORE w /\
    response_cache (snd (m w)) = response_cache w /\
    uuid_count (snd (m w)) = uuid_count w /\
    (provider_calls w <= provider_calls (snd (m w)) <= provider_calls w + k)%nat /\
    match fst (m w) with Ok a => Qa a | PyErr e => Qe e end.

Lemma frame_ret {A} (a : A) Qa Qe : Qa a -> frame (retM a) 0 Qa Qe.
Proof. intros Ha w. simpl. repeat split; auto; lia. Qed.

Lemma frame_raise {A} (e : exn) (Qa : A -> Prop) (Qe : exn -> Prop) :
  Qe e -> frame (raise e) 0 Qa Qe.
Proof. intros He w. simpl. repeat split; auto; lia. Qed.

Lemma frame_liftR {A} (r : Result A) Qa Qe :
  match r with Ok a => Qa a | PyErr e => Qe e end -> frame (liftR r) 0 Qa Qe.
Proof. intros Hr w. simpl. repeat split; auto; lia. Qed.

Lemma frame_log (ev : event) Qe : frame (log ev) 0 (fun _ => True) Qe.
Proof. intros w. simpl. repeat split; auto; lia. Qed.

Lemma frame_bind {A B} (m : M A) (k : A -> M B) n1 n2 Qa Qb Qe :
  frame m n1 Qa Qe -> (forall a, Qa a -> frame (k a) n2 Qb Qe) ->
  frame (bindM m k) (n1 + n2) Qb Qe.
Proof.
  intros Hm Hk w. unfold bindM.
  destruct (Hm w) as (H1 & H2 & H3 & H4 & H5).
  destruct (m w) as [[a|e] w1]; simpl in *.
  - destruct (Hk a H5 w1) as (K1 & K2 & K3 & K4 & K5).
    repeat split; try congruence; try lia; exact K5.
  - repeat split; auto; lia.
Qed.

Lemma frame_try {A} (m : M A) (h : exn -> M A) n1 n2 Qa Qe1 Qe :
  frame m n1 Qa Qe1 -> (forall e, Qe1 e -> frame (h e) n2 Qa Qe) ->
  frame (try_except m h) (n1 + n2) Qa Qe.
Proof.
  intros Hm Hh w. unfold try_except.
  destruct (Hm w) as (H1 & H2 & H3 & H4 & H5).
  destruct (m w) as [[a|e] w1]; simpl in *.
  - repeat split; auto; lia.
  - destruct (Hh e H5 w1) as (K1 & K2 & K3 & K4 & K5).
    repeat split; try congruence; try lia; exact K5.
Qed.

Lemma frame_weaken {A} (m : M A) n n' (Qa Qa' : A -> Prop) (Qe Qe' : exn -> Prop) :
  frame m n Qa Qe -> (n <= n')%nat ->
  (forall a, Qa a -> Qa' a) -> (forall e, Qe e -> Qe' e) ->
  frame m n' Qa' Qe'.
Proof.
  intros Hm Hn HA HE w. destruct (Hm w) as (H1 & H2 & H3 & H4 & H5).
  repeat split; auto; try lia. destruct (fst (m w)); auto.
Qed.

Lemma frame_call_embed (text : string) :
  frame (call_embed text) 1
    (fun o => exists n, embed_content n text = Ok o)
    (fun e => exists n, embed_content n text = PyErr e).
Proof.
  intros w. simpl. repeat split; try lia.
  destruct (embed_content (provider_calls w) text) eqn:E; eauto.
Qed.

Lemma frame_call_generate (prompt : string) :
  frame (call_generate prompt) 1
    (fun s => exists n, generate_content n prompt = Ok s)
    (fun e => exists n, generate_content n prompt = PyErr e).
Proof.
  intros w. simpl. repeat split; try lia.
  destruct (generate_content (provider_calls w) prompt) eqn:E; eauto.
Qed.

(** [_retry_with_backoff] calls [func] at most [remaining] times, returns
    what [func] returned and raises what [func] raised. *)
Lemma frame_retry_go {A} (func : M A) max init Qa Qe :
  frame func 1 Qa Qe ->
  forall remaining attempt,
  frame (retry_go func max init attempt remaining) remaining
    (fun o => match o with Some a => Qa a | None => True end) Qe.
Proof.
  intros Hf. induction remaining as [|r IH]; intros attempt; simpl.
  - by apply frame_ret.
  - replace (S r) with (1 + r)%nat by lia. apply frame_try with (Qe1 := Qe).
    + rewrite <- (Nat.add_0_r 1). apply frame_bind with (Qa := Qa); [exact Hf|].
      intros a Ha. by apply frame_ret.
    + intros e He.
      destruct (is_rate_limit (str_exn e) && (attempt <? max - 1)%nat).
      * change r with (0 + (0 + r))%nat.
        apply frame_bind with (Qa := fun _ => True); [apply frame_log|]. intros _ _.
        apply frame_bind with (Qa := fun _ => True); [apply frame_log|]. intros _ _.
        apply IH.
      * apply frame_weaken with 0%nat (fun o : option A => match o with Some a => Qa a | None => True end) Qe;
          [by apply frame_raise|lia|done|done].
Qed.

(** With [attempt + remaining = max_retries] and at least one iteration
    left, the loop never falls through to [None]. *)
Lemma retry_go_not_none {A} (func : M A) max init :
  forall remaining attempt w,
  (1 <= remaining)%nat -> (attempt + remaining = max)%nat ->
  fst (retry_go func max init attempt remaining w) <> Ok None.
Proof.
  induction remaining as [|r IH]; intros attempt w Hr Ha; [lia|].
  simpl. unfold try_except, bindM.
  destruct (func w) as [[a|e] w1]; simpl; [discriminate|].
  destruct (is_rate_limit (str_exn e) && (attempt <? max - 1)%nat) eqn:E; simpl; [|discriminate].
  apply andb_prop in E as [_ E]. apply Nat.ltb_lt in E.
  apply IH; lia.
Qed.

Lemma frame_embed_one (text : string) :
  frame (embed_one text) 3
    (fun v => v = zero_vector \/ exists n t, embed_content n t = Ok (Some v))
    (fun _ => False).
Proof.
  unfold embed_one. replace 3%nat with ((3 + 0) + 0)%nat by lia.
  apply frame_try with (Qe1 := fun _ => True).
  - apply frame_bind with
      (Qa := fun o => match o with Some a => exists n, embed_content n text = Ok a | None => True end).
    + unfold retry_with_backoff.
      apply frame_weaken with 3%nat
        (fun o => match o with Some a => exists n, embed_content n text = Ok a | None => True end)
        (fun e => exists n, embed_content n text = PyErr e);
        [apply frame_retry_go, frame_call_embed|lia|done|done].
    + intros o Ho. apply frame_liftR.
      destruct o as [[v|]|]; simpl; auto. destruct Ho as [n Hn]. right. eauto.
  - intros e _. rewrite <- (Nat.add_0_r 0).
    apply frame_bind with (Qa := fun _ => True); [apply frame_log|].
    intros _ _. apply frame_ret. by left.
Qed.

Lemma frame_embed (texts : list string) :
  frame (embed texts) (3 * length texts)
    (fun vs => length vs = length texts /\
       Forall (fun v => v = zero_vector \/ exists n t, embed_content n t = Ok (Some v)) vs)
    (fun _ => False).
Proof.
  induction texts as [|t ts IH]; cbn [embed length].
  - apply frame_ret. split; [done|constructor].
  - replace (3 * S (length ts))%nat with (3 + (3 * length ts + 0))%nat by lia.
    apply frame_bind with (Qa := fun v => v = zero_vector \/ exists n t, embed_content n t = Ok (Some v));
      [apply frame_embed_one|].
    intros v Hv. apply frame_bind with
      (Qa := fun vs => length vs = length ts /\
         Forall (fun v => v = zero_vector \/ exists n t, embed_content n t = Ok (Some v)) vs);
      [exact IH|].
    intros vs [Hl Hvs]. apply frame_ret. simpl. split; [by rewrite Hl|]. by constructor.
Qed.

(** [embed] never raises and gives one vector per text, each either a
    vector the provider returned or the zero vector; the batch costs at
    most 3 provider calls per text. *)
Theorem embed_one_vector_per_text (texts : list string) (w : World) :
  exists vs, fst (embed texts w) = Ok vs /\
    length vs = length texts /\
    Forall (fun v => v = zero_vector \/ exists n t, embed_content n t = Ok (Some v)) vs /\
    (provider_calls (snd (embed texts w)) <= provider_calls w + 3 * length texts)%nat.
Proof.
  destruct (frame_embed texts w) as (_ & _ & _ & Hc & Hr).
  destruct (fst (embed texts w)) as [vs|e] eqn:E; [|done].
  destruct Hr as [Hl Hf]. exists vs. repeat split; auto; lia.
Qed.

(** [w'] is [w] after [k] provider calls that logged [evs]. *)
Definition world_after (w w' : World) (k : nat) (evs : list event) : Prop :=
  DOC_STORE w' = DOC_STORE w /\ response_cache w' = response_cache w /\
  provider_calls w' = (provider_calls w + k)%nat /\ events w' = events w ++ evs /\
  uuid_count w' = uuid_count w.

(** The body of [embed_one] from attempt [attempt] on, [left] attempts left. *)
Definition embed_try (text : string) (attempt left : nat) : M vec :=
  try_except
    (let* result := retry_go (call_embed text) 3 1 attempt left in
     liftR (get_embedding result))
    (fun e =>
       let* _ := log (EWarning ("Embedding error: " +:+ str_exn e +:+ ". Using zero vector.")) in
       retM zero_vector).

Lemma embed_try_retry (text : string) (attempt left : nat) (w : World) (e : exn) :
  embed_content (provider_calls w) text = PyErr e ->
  is_rate_limit (str_exn e) && (attempt <? 2)%nat = true ->
  embed_try text attempt (S left) w
  = embed_try text (S attempt) left
      (add_event (ESleep (1 * inject_Z (2 ^ Z.of_nat attempt)))
        (add_event (EWarning "Rate limited. Retrying")
          (add_event (ECallEmbed text) (tick_calls w)))).
Proof.
  intros Hc Hr. unfold embed_try. cbn [retry_go].
  cbv [try_except bindM retM call_embed log]. rewrite Hc.
  change (3 - 1)%nat with 2%nat. rewrite Hr. reflexivity.
Qed.

Lemma embed_try_run (text : string) :
  forall left attempt w,
  let '(v, evs, k) := spec_embed_attempts text attempt left (provider_calls w) in
  fst (embed_try text attempt left w) = Ok v /\
  world_after w (snd (embed_try text attempt left w)) k evs.
Proof.
  induction left as [|left IH]; intros attempt w.
  - cbv [embed_try retry_go try_except bindM retM liftR get_embedding log].
    cbn. unfold world_after. cbn. repeat split; lia.
  - cbn [spec_embed_attempts].
    destruct (embed_content (provider_calls w) text) as [[v|]|e] eqn:Hc.
    + unfold embed_try. cbn [retry_go].
      cbv [try_except bindM retM call_embed liftR get_embedding log]. rewrite Hc.
      cbn. unfold world_after. cbn. repeat split; lia.
    + unfold embed_try. cbn [retry_go].
      cbv [try_except bindM retM call_embed liftR get_embedding log]. rewrite Hc.
      cbn. unfold world_after. cbn. repeat split; [lia|]. by rewrite <- app_assoc.
    + destruct (is_rate_limit (str_exn e) && (attempt <? 2)%nat) eqn:Hr.
      * rewrite (embed_try_retry text attempt left w e Hc Hr).
        set (w2 := add_event (ESleep (1 * inject_Z (2 ^ Z.of_nat attempt)))
                     (add_event (EWarning "Rate limited. Retrying")
                        (add_event (ECallEmbed text) (tick_calls w)))).
        specialize (IH (S attempt) w2).
        change (provider_calls w2) with (S (provider_calls w)) in IH.
        destruct (spec_embed_attempts text (S attempt) left (S (provider_calls w)))
          as [[v evs] k].
        destruct IH as [I1 (I2 & I3 & I4 & I5 & I6)]. split; [exact I1|].
        unfold world_after. rewrite I2, I3, I4, I5, I6. cbn.
        repeat split; [lia|]. by rewrite <- !app_assoc.
      * unfold embed_try. cbn [retry_go].
        cbv [try_except bindM retM call_embed liftR get_embedding log raise]. rewrite Hc.
        change (3 - 1)%nat with 2%nat. rewrite Hr.
        cbn. unfold world_after. cbn. repeat split; [lia|]. by rewrite <- app_assoc.
Qed.

Lemma embed_run (texts : list string) :
  forall w,
  let '(vs, evs, k) := spec_embed texts (provider_calls w) in
  fst (embed texts w) = Ok vs /\ world_after w (snd (embed texts w)) k evs.
Proof.
  induction texts as [|t ts IH]; intros w.
  - cbn. unfold world_after. rewrite app_nil_r. repeat split; lia.
  - cbn [spec_embed embed].
    pose proof (embed_try_run t 3 0 w) as Ht.
    change (embed_one t) with (embed_try t 0 3).
    destruct (spec_embed_attempts t 0 3 (provider_calls w)) as [[v evs] k].
    destruct Ht as [T1 (T2 & T3 & T4 & T5 & T6)].
    unfold bindM.
    destruct (embed_try t 0 3 w) as [r w1]. cbn in T1, T2, T3, T4, T5, T6 |- *. subst r.
    specialize (IH w1). rewrite T4 in IH.
    destruct (spec_embed ts (provider_calls w + k)) as [[vs evs'] k'].
    destruct IH as [I1 (I2 & I3 & I4 & I5 & I6)].
    destruct (embed ts w1) as [r2 w2]. cbn in I1, I2, I3, I4, I5, I6 |- *. subst r2.
    split; [done|]. unfold world_after. cbn.
    rewrite I2, I3, I4, I5, I6, T2, T3, T4, T5, T6.
    repeat split; [lia|]. by rewrite <- app_assoc.
Qed.

(** Each text gets 1 to 3 provider calls under the spec's policy, and
    either gets the vector of one of them or the zero vector with a
    closing ["Embedding error: ..."] warning. *)
Lemma spec_embed_attempts_bounds (text : string) :
  forall left attempt m, (attempt + left = 3)%nat -> (1 <= left)%nat ->
  let '(v, evs, k) := spec_embed_attempts text attempt left m in
  (1 <= k <= left)%nat /\
  ((exists j, (m <= j < m + k)%nat /\ embed_content j text = Ok (Some v)) \/
   (v = zero_vector /\
    exists msg, last evs = Some (EWarning ("Embedding error: " +:+ msg +:+ ". Using zero vector.")))).
Proof.
  induction left as [|left IH]; intros attempt m Ha Hl; [lia|].
  cbn [spec_embed_attempts].
  destruct (embed_content m text) as [[v|]|e] eqn:Hc.
  - split; [lia|]. left. exists m. split; [lia|done].
  - split; [lia|]. right. split; [done|]. by eexists.
  - destruct (is_rate_limit (str_exn e) && (attempt <? 2)%nat) eqn:Hr.
    + apply andb_prop in Hr as [_ Hr]. apply Nat.ltb_lt in Hr.
      specialize (IH (S attempt) (S m) ltac:(lia) ltac:(lia)).
      destruct (spec_embed_attempts text (S attempt) left (S m)) as [[v evs] k].
      destruct IH as [Hk [(j & Hj & Hv)|(Hv & msg & Hm)]].
      * split; [lia|]. left. exists j. split; [lia|done].
      * split; [lia|]. right. split; [done|]. exists msg.
        rewrite !last_cons, Hm. reflexivity.
    + split; [lia|]. right. split; [done|]. by eexists.
Qed.

Lemma spec_embed_length (texts : list string) :
  forall m, let '(vs, evs, k) := spec_embed texts m in
  length vs = length texts /\ (length texts <= k <= 3 * length texts)%nat.
Proof.
  induction texts as [|t ts IH]; intros m; cbn [spec_embed]; [cbn; lia|].
  pose proof (spec_embed_attempts_bounds t 3 0 m eq_refl ltac:(lia)) as Hb.
  destruct (spec_embed_attempts t 0 3 m) as [[v evs] k]. destruct Hb as [Hk _].
  specialize (IH (m + k)%nat).
  destruct (spec_embed ts (m + k)) as [[vs evs'] k'].
  cbn. lia.
Qed.

(** C3 (amended): [embed] follows the retry policy of the spec
    ([spec_embed]): every text is tried with [_retry_with_backoff]'s
    defaults (at most 3 attempts, sleeps of [1.0 * 2 ** attempt]
    seconds, retrying only rate-limit errors), its vector is the
    provider's or, once the attempts fail, the zero vector of length 768
    after a logged warning. The batch never fails, gives one vector per
    text, makes 1 to 3 provider calls per text and changes nothing but
    the call counter and the log. *)
Theorem embed_retry_policy (texts : list string) (w : World) :
  (let '(vs, evs, k) := spec_embed texts (provider_calls w) in
   fst (embed texts w) = Ok vs /\ length vs = length texts /\
   (length texts <= k <= 3 * length texts)%nat /\
   world_after w (snd (embed texts w)) k evs) /\
  (forall text m,
   let '(v, evs, k) := spec_embed_attempts text 0 3 m in
   (1 <= k <= 3)%nat /\
   ((exists j, (m <= j < m + k)%nat /\ embed_content j text = Ok (Some v)) \/
    (v = zero_vector /\
     exists msg, last evs = Some (EWarning ("Embedding error: " +:+ msg +:+ ". Using zero vector."))))) /\
  length zero_vector = 768%nat.
Proof.
  split; [|split; [|reflexivity]].
  - pose proof (embed_run texts w) as Hr. pose proof (spec_embed_length texts (provider_calls w)) as Hl.
    destruct (spec_embed texts (provider_calls w)) as [[vs evs] k].
    destruct Hr as [H1 H2]. destruct Hl as [L1 L2]. auto.
  - intros text m. exact (spec_embed_attempts_bounds text 3 0 m eq_refl ltac:(lia)).
Qed.

Lemma frame_generate_func (sp up : string) :
  frame (generate_func sp up) 1
    (fun s => s = "No response generated" \/ exists n p, generate_content n p = Ok s)
    (fun e => exists n p, generate_content n p = PyErr e).
Proof.
  unfold generate_func. rewrite <- (Nat.add_0_r 1).
  apply frame_bind with
    (Qa := fun s => exists n, generate_content n (sp +:+ newline +:+ newline +:+ up) = Ok s).
  - apply frame_weaken with 1%nat
      (fun s => exists n, generate_content n (sp +:+ newline +:+ newline +:+ up) = Ok s)
      (fun e => exists n, generate_content n (sp +:+ newline +:+ newline +:+ up) = PyErr e);
      [apply frame_call_generate|lia|done|].
    intros e [n Hn]. eauto.
  - intros text [n Hn]. apply frame_ret. destruct text; [by left|right; eauto].
Qed.

(** The cache holds strings only (never Python's [None]). *)
Definition cache_strings (w : World) : Prop :=
  map_Forall (fun _ v => v <> None) (response_cache w).

(** C5: [generate] always returns a string. On a cache hit it returns the
    cached value and changes nothing (no provider call); on a miss it
    caches and returns the provider's text, or ["Error: " + str(e)] for
    the exception [e] the provider raised. Any later call with the same
    prompts against the same cache returns the same text at once. *)
Theorem generate_returns_cached_string (sp up : string) (w : World) :
  cache_strings w ->
  exists s,
    fst (generate sp up w) = Ok (Some s) /\
    cache_strings (snd (generate sp up w)) /\
    (forall v, response_cache w !! py_hash (sp +:+ up) = Some v ->
       v = Some s /\ snd (generate sp up w) = w) /\
    (response_cache w !! py_hash (sp +:+ up) = None ->
       response_cache (snd (generate sp up w))
         = <[py_hash (sp +:+ up) := Some s]> (response_cache w) /\
       (s = "No response generated" \/
        (exists n p, generate_content n p = Ok s) \/
        (exists n p e, generate_content n p = PyErr e /\ s = "Error: " +:+ str_exn e))) /\
    (forall w2, response_cache w2 = response_cache (snd (generate sp up w)) ->
       generate sp up w2 = (Ok (Some s), w2)).
Proof.
  intros Hw. unfold generate, bindM, get_cache. simpl.
  destruct (response_cache w !! py_hash (sp +:+ up)) as [v|] eqn:Hk.
  - assert (Hv : v <> None) by (exact (Hw _ v Hk)).
    destruct v as [s|]; [|done]. exists s. simpl.
    split; [done|]. split; [done|]. split; [|split].
    + intros v' Hv'. by injection Hv' as <-.
    + done.
    + intros w2 Hc. unfold retM. by rewrite Hc, Hk.
  - unfold try_except, bindM.
    pose proof (frame_retry_go (generate_func sp up) 4 2 _ _ (frame_generate_func sp up) 4 0 w)
      as (H1 & H2 & H3 & H4 & H5).
    pose proof (retry_go_not_none (generate_func sp up) 4 2 4 0 w ltac:(lia) ltac:(lia)) as Hnn.
    unfold retry_with_backoff.
    destruct (retry_go (generate_func sp up) 4 2 0 4 w) as [[o|e] w1]; simpl in *.
    + destruct o as [s|]; [|done]. exists s. simpl.
      split; [done|]. split; [|split; [|split]].
      * unfold cache_strings. simpl. apply map_Forall_insert_2; [done|].
        rewrite H2. exact Hw.
      * intros v Hv. discriminate.
      * intros _. rewrite H2. split; [done|].
        destruct H5 as [->|Hs]; [by left|by right; left].
      * intros w2 Hc. simpl in Hc. unfold retM. rewrite Hc. simpl.
        by rewrite lookup_insert_eq.
    + exists ("Error: " +:+ str_exn e). simpl.
      split; [done|]. split; [|split; [|split]].
      * unfold cache_strings. simpl. apply map_Forall_insert_2; [done|].
        rewrite H2. exact Hw.
      * intros v Hv. discriminate.
      * intros _. rewrite H2. split; [done|].
        destruct H5 as (n & p & Hp). right; right. eauto.
      * intros w2 Hc. simpl in Hc. unfold retM. rewrite Hc. simpl.
        by rewrite lookup_insert_eq.
Qed.

End Frame.

(** C3 (as stated, refuted): with a provider whose first call is
    rate-limited, [embed(["x"])] calls the provider twice for the one
    text, sleeping one second in between. *)
Lemma embed_retries_counterexample :
  fst (@embed Sample.sample ["x"] App.init_world) = Ok [[1%Q; 0%Q]] /\
  events (snd (@embed Sample.sample ["x"] App.init_world))
    = [ECallEmbed "x"; EWarning "Rate limited. Retrying";
       ESleep (backoff_delay 1 0); ECallEmbed "x"].
Proof. split; reflexivity. Qed.

Lemma generate_returns_cached_string_witness :
  cache_strings App.init_world /\
  fst (@generate Sample.sample "sys" "user" App.init_world) = Ok (Some "an answer").
Proof.
  split; [apply map_Forall_empty|].
  destruct (@generate_returns_cached_string Sample.sample "sys" "user" App.init_world
              (map_Forall_empty _)) as (s & Hs & _).
  rewrite Hs. f_equal. f_equal.
  assert (E : fst (@generate Sample.sample "sys" "user" App.init_world) = Ok (Some "an answer"))
    by reflexivity.
  rewrite Hs in E. by injection E.
Defined.

End LLMFacts.

Module TopKFacts.
Import Py Backend TopK.

Section Key.
Variable key : nat -> Q.

(** [i] comes no later than [j] in ascending key order. *)
Definition key_le (i j : nat) : Prop := (key i <= key j)%Q.

Lemma insert_idx_perm (i : nat) (l : list nat) :
  insert_idx key i l ≡ₚ i :: l.
Proof.
  induction l as [|j l IH]; simpl; [done|].
  destruct (Qle_bool (key j) (key i)); [|done].
  rewrite IH. apply perm_swap.
Qed.

Lemma insert_idx_sorted (i : nat) (l : list nat) :
  StronglySorted key_le l -> StronglySorted key_le (insert_idx key i l).
Proof.
  induction l as [|j l IH]; intros Hs; simpl.
  - repeat constructor.
  - apply StronglySorted_inv in Hs as [Hs Hf].
    destruct (Qle_bool (key j) (key i)) eqn:E.
    + constructor; [by apply IH|].
      apply List.Forall_forall. intros x Hx.
      apply (Permutation_in _ (insert_idx_perm i l)) in Hx as [<-|Hx].
      * by apply Qle_bool_iff.
      * rewrite List.Forall_forall in Hf. by apply Hf.
    + assert (Hij : key_le i j).
      { unfold key_le. apply Qlt_le_weak, Qnot_le_lt. intros Hc.
        apply Qle_bool_iff in Hc. congruence. }
      constructor; [by constructor|].
      constructor; [done|].
      apply List.Forall_forall. intros x Hx.
      rewrite List.Forall_forall in Hf. unfold key_le in *.
      eapply Qle_trans; [exact Hij|]. by apply Hf.
Qed.

Lemma fold_insert_perm (l acc : list nat) :
  fold_left (fun acc i => insert_idx key i acc) l acc ≡ₚ l ++ acc.
Proof.
  revert acc. induction l as [|x l IH]; intros acc; simpl; [done|].
  rewrite IH, insert_idx_perm. symmetry. apply Permutation_middle.
Qed.

Lemma fold_insert_sorted (l acc : list nat) :
  StronglySorted key_le acc ->
  StronglySorted key_le (fold_left (fun acc i => insert_idx key i acc) l acc).
Proof.
  revert acc. induction l as [|x l IH]; intros acc Hs; simpl; [done|].
  apply IH. by apply insert_idx_sorted.
Qed.

Lemma sorted_take (n : nat) (l : list nat) :
  StronglySorted key_le l -> StronglySorted key_le (take n l).
Proof.
  revert n. induction l as [|x l IH]; intros n Hs; [by destruct n|].
  destruct n as [|n]; simpl; [constructor|].
  apply StronglySorted_inv in Hs as [Hs Hf]. constructor; [by apply IH|].
  apply List.Forall_forall. intros y Hy.
  rewrite List.Forall_forall in Hf. apply Hf.
  apply list_elem_of_In. apply list_elem_of_In in Hy.
  eapply elem_of_sublist; [exact Hy|]. apply sublist_take.
Qed.

Lemma sorted_lookup (l : list nat) (a b x y : nat) :
  StronglySorted key_le l -> (a < b)%nat ->
  l !! a = Some x -> l !! b = Some y -> key_le x y.
Proof.
  revert a b. induction l as [|z l IH]; intros a b Hs Hab Ha Hb; [done|].
  apply StronglySorted_inv in Hs as [Hs Hf].
  destruct b as [|b]; [lia|]. destruct a as [|a]; simpl in Ha, Hb.
  - injection Ha as <-. rewrite List.Forall_forall in Hf. apply Hf.
    apply list_elem_of_In. by eapply list_elem_of_lookup_2.
  - apply (IH a b); auto. lia.
Qed.

End Key.

Lemma argsort_perm (xs : list Q) : argsort xs ≡ₚ seq 0 (length xs).
Proof. unfold argsort. by rewrite fold_insert_perm, app_nil_r. Qed.

Lemma argsort_sorted (xs : list Q) :
  StronglySorted (key_le (fun j => nth j xs 0%Q)) (argsort xs).
Proof. apply fold_insert_sorted. constructor. Qed.

Lemma mapR_in_range (chunks : list string) (sims : list Q) (idxs : list nat) :
  Forall (fun i => i < length chunks)%nat idxs ->
  mapR (fun i => match nth_error chunks i with
                 | Some c => Ok (c, nth i sims 0%Q)
                 | None => PyErr (Exn "IndexError" "list index out of range")
                 end) idxs
  = Ok (map (fun i => (nth i chunks EmptyString, nth i sims 0%Q)) idxs).
Proof.
  induction idxs as [|i idxs IH]; intros Hr; [done|].
  inversion Hr as [|? ? Hi Hr']; subst. simpl.
  rewrite (nth_error_nth' chunks EmptyString Hi). simpl. by rewrite IH.
Qed.

Lemma nth_map_lt {A B} (f : A -> B) (l : list A) (i : nat) (da : A) (db : B) :
  (i < length l)%nat -> nth i (map f l) db = f (nth i l da).
Proof.
  intros Hi. rewrite (nth_indep (map f l) db (f da)) by (by rewrite length_map).
  apply map_nth.
Qed.

(** C9: when the query and the rows have one length and [chunks] is
    parallel to the rows, [top_k_chunks] returns the chunks and scores of
    [min(k, n)] distinct row indices, in descending order of score. *)
Theorem top_k_chunks_distinct_descending `{Externals} (q : vec) (doc_embs : list vec)
    (chunks : list string) (k : Z) :
  (1 <= k)%Z -> length chunks = length doc_embs ->
  Forall (fun r => length r = length q) doc_embs ->
  exists idxs,
    top_k_chunks q doc_embs chunks k =
      Ok (map (fun i => (nth i chunks EmptyString, cosine q (nth i doc_embs []))) idxs) /\
    length idxs = Nat.min (Z.to_nat k) (length doc_embs) /\
    NoDup idxs /\
    Forall (fun i => i < length doc_embs)%nat idxs /\
    (forall a b x y, (a < b)%nat -> idxs !! a = Some x -> idxs !! b = Some y ->
       (cosine q (nth y doc_embs []) <= cosine q (nth x doc_embs []))%Q).
Proof.
  intros Hk Hlen Hdim.
  assert (Hb : forallb (fun r => length r =? length q) doc_embs = true).
  { apply forallb_forall. intros r Hr. apply Nat.eqb_eq.
    rewrite List.Forall_forall in Hdim. by apply Hdim. }
  unfold top_k_chunks, sims_row. rewrite Hb. simpl.
  set (sims := map (cosine q) doc_embs).
  set (sorted := argsort (map Qopp sims)).
  assert (Hperm : sorted ≡ₚ seq 0 (length doc_embs)).
  { unfold sorted. rewrite argsort_perm. unfold sims. by rewrite !length_map. }
  assert (Hslen : length sorted = length doc_embs).
  { rewrite Hperm. apply length_seq. }
  set (m := Z.to_nat (SplitText.slice_bound (Z.of_nat (length sorted)) k)).
  assert (Hm : m = Nat.min (Z.to_nat k) (length doc_embs)).
  { unfold m, SplitText.slice_bound. rewrite Hslen.
    destruct (k <? 0)%Z eqn:E; [apply Z.ltb_lt in E; lia|]. lia. }
  assert (Hrange : Forall (fun i => i < length doc_embs)%nat (take m sorted)).
  { apply List.Forall_forall. intros i Hi.
    apply list_elem_of_In in Hi. pose proof (elem_of_sublist _ _ _ Hi (sublist_take _ _)) as Hi'.
    clear Hi. rename Hi' into Hi.
    rewrite Hperm in Hi. apply elem_of_seq in Hi. lia. }
  exists (take m sorted). unfold py_take. fold sorted. fold m.
  split; [|split; [|split; [|split]]].
  - rewrite mapR_in_range.
    + f_equal. apply map_ext_in. intros i Hi.
      rewrite List.Forall_forall in Hrange. specialize (Hrange i Hi).
      unfold sims. by rewrite (nth_map_lt (cosine q) doc_embs i [] 0%Q).
    + rewrite Hlen. exact Hrange.
  - rewrite length_take, Hslen, Hm. lia.
  - eapply sublist_NoDup; [|apply sublist_take].
    rewrite Hperm. apply NoDup_seq.
  - exact Hrange.
  - intros a b x y Hab Hx Hy.
    pose proof (sorted_lookup _ _ a b x y (sorted_take _ m _ (argsort_sorted (map Qopp sims)))
                  Hab Hx Hy) as Hxy.
    unfold key_le in Hxy.
    assert (Hxn : (x < length doc_embs)%nat).
    { rewrite List.Forall_forall in Hrange. apply Hrange, list_elem_of_In.
      by eapply list_elem_of_lookup_2. }
    assert (Hyn : (y < length doc_embs)%nat).
    { rewrite List.Forall_forall in Hrange. apply Hrange, list_elem_of_In.
      by eapply list_elem_of_lookup_2. }
    assert (Hsl : length sims = length doc_embs) by (unfold sims; apply length_map).
    rewrite (nth_map_lt Qopp sims x 0%Q 0%Q), (nth_map_lt Qopp sims y 0%Q 0%Q) in Hxy by lia.
    unfold sims in Hxy.
    rewrite (nth_map_lt (cosine q) doc_embs x [] 0%Q), (nth_map_lt (cosine q) doc_embs y [] 0%Q)
      in Hxy by lia.
    apply Qopp_le_compat in Hxy. rewrite !Qopp_opp in Hxy. exact Hxy.
Qed.

Lemma top_k_chunks_distinct_descending_witness :
  (1 <= 5)%Z /\ length ["a"; "b"; "c"] = length [[1%Q]; [2%Q]; [3%Q]] /\
  Forall (fun r => length r = length [1%Q]) [[1%Q]; [2%Q]; [3%Q]] /\
  exists idxs,
    @top_k_chunks Sample.sample [1%Q] [[1%Q]; [2%Q]; [3%Q]] ["a"; "b"; "c"] 5 =
      Ok (map (fun i => (nth i ["a"; "b"; "c"] EmptyString, 0%Q)) idxs) /\
    length idxs = 3%nat.
Proof.
  split; [lia|]. split; [reflexivity|]. split; [repeat constructor|].
  destruct (@top_k_chunks_distinct_descending Sample.sample [1%Q] [[1%Q]; [2%Q]; [3%Q]]
              ["a"; "b"; "c"] 5 ltac:(lia) eq_refl ltac:(repeat constructor))
    as (idxs & Hr & Hl & _).
  exists idxs. split; [exact Hr|]. rewrite Hl. reflexivity.
Defined.

End TopKFacts.

Module AppFacts.
Import Py PyStr Backend LLM LLMFacts App.

Section Facts.
Context `{Externals}.

Lemma embed_store (texts : list string) (w : World) :
  DOC_STORE (snd (embed texts w)) = DOC_STORE w /\
  uuid_count (snd (embed texts w)) = uuid_count w /\
  exists vs, fst (embed texts w) = Ok vs /\ length vs = length texts.
Proof.
  destruct (frame_embed texts w) as (H1 & _ & H3 & _ & H5).
  split; [done|]. split; [done|].
  destruct (fst (embed texts w)) as [vs|e]; [|done]. exists vs. split; [done|]. apply H5.
Qed.

(** C6: a non-[.pdf] name, a blank extracted text or an empty chunk list
    ends the upload with an HTTP 400 and leaves [DOC_STORE] as it was;
    [DOC_STORE] changes only when the upload returns an
    [UploadResponse]. *)
Theorem upload_invalid_no_record (filename : string) (content : bytes) (w : World) :
  ((endswith (lower filename) ".pdf" = false \/
    exists text, Extract.extract_text_from_pdf PdfReader (PyBytes content) = Ok text /\
      (strip text = EmptyString \/ Chunk.chunk_text text 400 = [])) ->
   (exists detail, fst (upload_pdf filename content w) = PyErr (HTTPException 400 detail)) /\
   DOC_STORE (snd (upload_pdf filename content w)) = DOC_STORE w) /\
  (DOC_STORE (snd (upload_pdf filename content w)) <> DOC_STORE w ->
   exists doc_id n, fst (upload_pdf filename content w) = Ok (UploadResponse doc_id n)).
Proof.
  unfold upload_pdf.
  remember (Extract.extract_text_from_pdf PdfReader (PyBytes content)) as ex eqn:Ex.
  destruct (endswith (lower filename) ".pdf") eqn:Hpdf.
  - unfold log_and_reraise, try_except, bindM, liftR. simpl.
    destruct ex as [text|e]; simpl.
    + remember (Chunk.chunk_text text 400) as cs eqn:Hcs.
      pose proof (embed_store cs w) as (E1 & E2 & vs & E3 & E4).
      remember (embed cs) as emb eqn:Hemb.
      destruct (strip text) as [|c s] eqn:Hs; simpl.
      * split; [intros _; eauto|done].
      * destruct cs as [|c0 cs']; simpl.
        -- split; [intros _; eauto|done].
        -- destruct (emb w) as [r w1]. simpl in *. subst r.
           split.
           ++ intros [Hf|(t & Ht & [Hb|Hb])]; [done| |]; injection Ht as <-; congruence.
           ++ destruct (np_array_f32 vs) as [a|e]; simpl; [intros _; eauto|].
              intros Hne. exfalso. apply Hne. exact E1.
    + split; [|done]. intros [Hf|(t & Ht & _)]; done.
  - simpl. split; [intros _; eauto|done].
Qed.

(** C7: for a [doc_id] that is not a key of [DOC_STORE], [/ask],
    [/summary] and [/search] raise HTTP 404 and leave [DOC_STORE] as it
    was. *)
Theorem unknown_doc_id_404 (doc_id question query : string) (w : World) :
  DOC_STORE w !! doc_id = None ->
  (fst (ask_question doc_id question w) = PyErr (HTTPException 404 "Unknown doc_id") /\
   DOC_STORE (snd (ask_question doc_id question w)) = DOC_STORE w) /\
  (fst (summarize doc_id w) = PyErr (HTTPException 404 "Unknown doc_id") /\
   DOC_STORE (snd (summarize doc_id w)) = DOC_STORE w) /\
  (fst (search doc_id query w) = PyErr (HTTPException 404 "Unknown doc_id") /\
   DOC_STORE (snd (search doc_id query w)) = DOC_STORE w).
Proof.
  intros Hn. unfold ask_question, summarize, search, bindM, get_store. simpl.
  rewrite Hn. simpl. repeat split.
Qed.

(** Code that leaves [DOC_STORE] and the uuid counter alone. *)
Definition keeps {A} (m : M A) : Prop :=
  forall w, DOC_STORE (snd (m w)) = DOC_STORE w /\ uuid_count (snd (m w)) = uuid_count w.

Lemma keeps_ret {A} (a : A) : keeps (retM a).
Proof. intros w. done. Qed.

Lemma keeps_raise {A} (e : exn) : keeps (A := A) (raise e).
Proof. intros w. done. Qed.

Lemma keeps_liftR {A} (r : Result A) : keeps (liftR r).
Proof. intros w. done. Qed.

Lemma keeps_log (ev : event) : keeps (log ev).
Proof. intros w. done. Qed.

Lemma keeps_get_store : keeps get_store.
Proof. intros w. done. Qed.

Lemma keeps_get_cache : keeps get_cache.
Proof. intros w. done. Qed.

Lemma keeps_put_cache c : keeps (put_cache c).
Proof. intros w. done. Qed.

Lemma keeps_bind {A B} (m : M A) (k : A -> M B) :
  keeps m -> (forall a, keeps (k a)) -> keeps (bindM m k).
Proof.
  intros Hm Hk w. unfold bindM. destruct (Hm w) as [H1 H2].
  destruct (m w) as [[a|e] w1]; simpl in *; [|done].
  destruct (Hk a w1). split; congruence.
Qed.

Lemma keeps_try {A} (m : M A) (h : exn -> M A) :
  keeps m -> (forall e, keeps (h e)) -> keeps (try_except m h).
Proof.
  intros Hm Hh w. unfold try_except. destruct (Hm w) as [H1 H2].
  destruct (m w) as [[a|e] w1]; simpl in *; [done|].
  destruct (Hh e w1). split; congruence.
Qed.

Lemma keeps_frame {A} (m : M A) n Qa Qe : frame m n Qa Qe -> keeps m.
Proof. intros Hf w. destruct (Hf w) as (H1 & _ & H3 & _). done. Qed.

Lemma keeps_embed (texts : list string) : keeps (embed texts).
Proof. eapply keeps_frame, frame_embed. Qed.

Lemma keeps_generate (sp up : string) : keeps (generate sp up).
Proof.
  unfold generate. apply keeps_bind; [apply keeps_get_cache|]. intros cache.
  destruct (cache !! _); [apply keeps_ret|].
  apply keeps_try.
  - apply keeps_bind.
    + eapply keeps_frame, frame_retry_go, frame_generate_func.
    + intros r. apply keeps_bind; [apply keeps_get_cache|]. intros c.
      apply keeps_bind; [apply keeps_put_cache|]. intros _. apply keeps_ret.
  - intros e. apply keeps_bind; [apply keeps_log|]. intros _.
    apply keeps_bind; [apply keeps_get_cache|]. intros c.
    apply keeps_bind; [apply keeps_put_cache|]. intros _. apply keeps_ret.
Qed.

Lemma keeps_reraise {A} (m : M A) : keeps m -> keeps (log_and_reraise m).
Proof.
  intros Hm. apply keeps_try; [done|]. intros e.
  apply keeps_bind; [apply keeps_log|]. intros _. apply keeps_raise.
Qed.

Ltac keeps_auto :=
  repeat first
    [ apply keeps_embed | apply keeps_generate | apply keeps_reraise
    | apply keeps_bind | apply keeps_ret | apply keeps_raise
    | apply keeps_liftR | apply keeps_log | apply keeps_get_store | intros ].

Lemma keeps_ask (doc_id question : string) : keeps (ask_question doc_id question).
Proof.
  unfold ask_question. apply keeps_bind; [apply keeps_get_store|]. intros st.
  destruct (st !! doc_id); keeps_auto.
Qed.

Lemma keeps_summarize (doc_id : string) : keeps (summarize doc_id).
Proof.
  unfold summarize. apply keeps_bind; [apply keeps_get_store|]. intros st.
  destruct (st !! doc_id); keeps_auto.
Qed.

Lemma keeps_search (doc_id query : string) : keeps (search doc_id query).
Proof.
  unfold search. apply keeps_bind; [apply keeps_get_store|]. intros st.
  destruct (st !! doc_id); keeps_auto.
Qed.

Lemma np_array_f32_length (rows a : list vec) :
  np_array_f32 rows = Ok a -> length a = length rows.
Proof.
  unfold np_array_f32. destruct rows as [|r rows']; [by intros [= <-]|].
  destruct (forallb _ _); [|done]. intros [= <-]. simpl. by rewrite length_map.
Qed.

(** What [/upload] does to [DOC_STORE]: nothing, or one new record with
    one embedding row per chunk under the next uuid. *)
Lemma upload_effect (filename : string) (content : bytes) (w : World) :
  (DOC_STORE (snd (upload_pdf filename content w)) = DOC_STORE w /\
   uuid_count (snd (upload_pdf filename content w)) = uuid_count w) \/
  (exists d, length (chunks d) = length (embeddings d) /\
   DOC_STORE (snd (upload_pdf filename content w))
     = <[uuid4 (uuid_count w) := d]> (DOC_STORE w) /\
   uuid_count (snd (upload_pdf filename content w)) = S (uuid_count w)).
Proof.
  unfold upload_pdf.
  remember (Extract.extract_text_from_pdf PdfReader (PyBytes content)) as ex eqn:Ex.
  destruct (endswith (lower filename) ".pdf") eqn:Hpdf; [|left; done].
  unfold log_and_reraise, try_except, bindM, liftR. simpl.
  destruct ex as [text|e]; simpl; [|left; done].
  remember (Chunk.chunk_text text 400) as cs eqn:Hcs.
  pose proof (embed_store cs w) as (E1 & E2 & vs & E3 & E4).
  remember (embed cs) as emb eqn:Hemb.
  destruct (strip text) as [|c s]; simpl; [left; done|].
  destruct cs as [|c0 cs']; simpl; [left; done|].
  destruct (emb w) as [r w1]. simpl in *. subst r.
  destruct (np_array_f32 vs) as [a|e] eqn:Ha; simpl; [|left; done].
  right. exists (MkDoc (c0 :: cs') a). simpl.
  split; [|split; [by rewrite E1, E2|by rewrite E2]].
  rewrite (np_array_f32_length _ _ Ha). simpl in E4. by rewrite E4.
Qed.

Section Fresh.
(** [uuid.uuid4()] never gives the same identifier twice. *)
Hypothesis uuid4_inj : forall m n, uuid4 m = uuid4 n -> m = n.

Definition store_inv (w : World) : Prop :=
  (forall id d, DOC_STORE w !! id = Some d -> length (chunks d) = length (embeddings d)) /\
  (forall id d, DOC_STORE w !! id = Some d -> exists i, (i < uuid_count w)%nat /\ id = uuid4 i).

Lemma step_effect (req : request) (w : World) :
  store_inv w ->
  store_inv (snd (handle req w)) /\
  ((forall f c, req <> Upload f c) -> DOC_STORE (snd (handle req w)) = DOC_STORE w) /\
  (DOC_STORE (snd (handle req w)) = DOC_STORE w \/
   exists id d, DOC_STORE w !! id = None /\
     DOC_STORE (snd (handle req w)) = <[id := d]> (DOC_STORE w)).
Proof.
  intros [Hlen Hid].
  assert (Hkeep : forall m : M response, keeps m ->
    store_inv (snd (m w)) /\ DOC_STORE (snd (m w)) = DOC_STORE w).
  { intros m Hm. destruct (Hm w) as [K1 K2]. unfold store_inv. rewrite K1, K2. split; [split|]; done. }
  destruct req as [f c|i q|i|i q|]; simpl.
  - destruct (upload_effect f c w) as [[U1 U2]|(d & Hd & U1 & U2)].
    + split; [unfold store_inv; rewrite U1, U2; by split|]. split; [intros Hn; by destruct (Hn f c)|by left].
    + assert (Hfresh : DOC_STORE w !! uuid4 (uuid_count w) = None).
      { destruct (DOC_STORE w !! uuid4 (uuid_count w)) as [d'|] eqn:E; [|done].
        destruct (Hid _ _ E) as (j & Hj & Hju). apply uuid4_inj in Hju. lia. }
      unfold store_inv. split; [split|split].
      * rewrite U1. intros id d' Hl.
        destruct (decide (id = uuid4 (uuid_count w))) as [->|Hne].
        -- rewrite lookup_insert_eq in Hl. by injection Hl as <-.
        -- rewrite lookup_insert_ne in Hl by congruence. eauto.
      * rewrite U1, U2. intros id d' Hl.
        destruct (decide (id = uuid4 (uuid_count w))) as [->|Hne].
        -- exists (uuid_count w). split; [lia|done].
        -- rewrite lookup_insert_ne in Hl by congruence.
           destruct (Hid _ _ Hl) as (j & Hj & ->). exists j. split; [lia|done].
      * intros Hn. by destruct (Hn f c).
      * right. eauto.
  - destruct (Hkeep _ (keeps_ask i q)) as [K1 K2]. split; [done|split; [done|by left]].
  - destruct (Hkeep _ (keeps_summarize i)) as [K1 K2]. split; [done|split; [done|by left]].
  - destruct (Hkeep _ (keeps_search i q)) as [K1 K2]. split; [done|split; [done|by left]].
  - split; [by split|split; [done|by left]].
Qed.

Lemma reachable_inv (w : World) : reachable w -> store_inv w.
Proof.
  induction 1 as [|w req Hr IH].
  - split; intros id d Hl; simpl in Hl; by rewrite lookup_empty in Hl.
  - by apply step_effect.
Qed.

(** C8: in every reachable state each record has one embedding row per
    chunk; handling any request keeps every existing record as it is;
    only [/upload] changes [DOC_STORE], and then only by adding a record
    under an identifier that was not in use. *)
Theorem reachable_records_consistent_immutable (w : World) :
  reachable w ->
  (forall id d, DOC_STORE w !! id = Some d -> length (chunks d) = length (embeddings d)) /\
  (forall req,
     (forall id d, DOC_STORE w !! id = Some d ->
                   DOC_STORE (snd (handle req w)) !! id = Some d) /\
     ((forall f c, req <> Upload f c) -> DOC_STORE (snd (handle req w)) = DOC_STORE w) /\
     (DOC_STORE (snd (handle req w)) = DOC_STORE w \/
      exists id d, DOC_STORE w !! id = None /\
        DOC_STORE (snd (handle req w)) = <[id := d]> (DOC_STORE w))).
Proof.
  intros Hr. pose proof (reachable_inv w Hr) as Hinv.
  split; [apply Hinv|]. intros req.
  destruct (step_effect req w Hinv) as (_ & Hn & Hch).
  split; [|split; [exact Hn|exact Hch]].
  intros id d Hl. destruct Hch as [-> |(id' & d' & Hnone & ->)]; [done|].
  rewrite lookup_insert_ne; [done|]. intros ->. congruence.
Qed.

End Fresh.
End Facts.

Lemma sample_id_inj (m n : nat) : Sample.sample_id m = Sample.sample_id n -> m = n.
Proof.
  revert n. induction m as [|m IH]; intros [|n]; simpl; try done.
  intros [= E]. f_equal. by apply IH.
Qed.

Lemma upload_invalid_no_record_witness :
  endswith (lower "notes.txt") ".pdf" = false /\
  (exists detail, fst (@upload_pdf Sample.sample "notes.txt" [] init_world)
                  = PyErr (HTTPException 400 detail)).
Proof.
  split; [reflexivity|].
  apply (proj1 (@upload_invalid_no_record Sample.sample "notes.txt" [] init_world)).
  left. reflexivity.
Defined.

Lemma unknown_doc_id_404_witness :
  DOC_STORE init_world !! "missing" = None /\
  fst (@ask_question Sample.sample "missing" "why?" init_world)
    = PyErr (HTTPException 404 "Unknown doc_id").
Proof.
  split; [reflexivity|].
  apply (@unknown_doc_id_404 Sample.sample "missing" "why?" "q" init_world).
  reflexivity.
Defined.

Lemma reachable_records_consistent_immutable_witness :
  (forall m n, Sample.sample_id m = Sample.sample_id n -> m = n) /\
  @reachable Sample.sample (snd (@handle Sample.sample (Upload "a.pdf" []) init_world)) /\
  DOC_STORE (snd (@handle Sample.sample (Upload "a.pdf" []) init_world)) !! "u"
    = Some (MkDoc ["hello world"] [[1%Q; 0%Q]]) /\
  length (chunks (MkDoc ["hello world"] [[1%Q; 0%Q]]))
    = length (embeddings (MkDoc ["hello world"] [[1%Q; 0%Q]])) /\
  DOC_STORE (snd (@handle Sample.sample (Ask "u" "why?")
                    (snd (@handle Sample.sample (Upload "a.pdf" []) init_world)))) !! "u"
    = Some (MkDoc ["hello world"] [[1%Q; 0%Q]]).
Proof.
  assert (Hr : @reachable Sample.sample (snd (@handle Sample.sample (Upload "a.pdf" []) init_world)))
    by (apply reach_step, reach_init).
  assert (Hd : DOC_STORE (snd (@handle Sample.sample (Upload "a.pdf" []) init_world)) !! "u"
               = Some (MkDoc ["hello world"] [[1%Q; 0%Q]])) by (vm_compute; reflexivity).
  destruct (@reachable_records_consistent_immutable Sample.sample sample_id_inj _ Hr)
    as [Hlen Hreq].
  split; [exact sample_id_inj|]. split; [exact Hr|]. split; [exact Hd|].
  split; [exact (Hlen _ _ Hd)|].
  exact (proj1 (Hreq (Ask "u" "why?")) _ _ Hd).
Defined.

End AppFacts.

(* ================================================================== *)
(** * Further properties of the code *)
(* ================================================================== *)

Module ChunkMore.
Import PyStr Chunk ChunkFacts.

Lemma chunk_groups_length (m : Z) (ws cur : list string) :
  (1 <= m)%Z -> (Z.of_nat (length cur) < m)%Z ->
  Z.of_nat (length (chunk_groups m ws cur))
  = ((Z.of_nat (length cur + length ws) + m - 1) / m)%Z.
Proof.
  revert cur. induction ws as [|w ws IH]; intros cur Hm Hc; simpl.
  - rewrite Nat.add_0_r. destruct cur as [|x cur]; simpl.
    + symmetry. apply Z.div_small. lia.
    + simpl in Hc. apply Z.div_unique with (Z.of_nat (length cur))%Z; lia.
  - destruct (m <=? Z.of_nat (length (cur ++ [w])))%Z eqn:Hle.
    + apply Z.leb_le in Hle. rewrite length_app in Hle. simpl in Hle.
      simpl length. rewrite Nat2Z.inj_succ, IH by (simpl; lia). simpl length.
      assert (Hcm : (Z.of_nat (length cur) = m - 1)%Z) by lia.
      replace (Z.of_nat (length cur + S (length ws)) + m - 1)%Z
        with ((Z.of_nat (0 + length ws) + m - 1) + 1 * m)%Z by lia.
      rewrite Z.div_add by lia. lia.
    + apply Z.leb_gt in Hle. rewrite length_app in Hle. simpl in Hle.
      rewrite IH by (rewrite ?length_app; simpl; lia).
      rewrite length_app. simpl. do 2 f_equal. lia.
Qed.

(** [chunk_text] gives [ceil(len(text.split()) / N)] chunks for [N >= 1]:
    so no chunk at all exactly when the text has no word. *)
Theorem chunk_text_count (text : string) (N : Z) :
  (1 <= N)%Z ->
  Z.of_nat (length (chunk_text text N))
  = ((Z.of_nat (length (split text)) + N - 1) / N)%Z.
Proof.
  intros HN. unfold chunk_text. rewrite chunk_loop_groups, length_map.
  rewrite chunk_groups_length by (simpl; lia). reflexivity.
Qed.

Lemma chunk_text_count_witness :
  (1 <= 400)%Z /\
  Z.of_nat (length (chunk_text (join " " (repeat "w" 850)) 400)) = 3%Z.
Proof.
  split; [lia|].
  rewrite (chunk_text_count (join " " (repeat "w" 850)) 400) by lia.
  vm_compute. reflexivity.
Defined.

Lemma chunk_loop_small (N : Z) (ws : list string) :
  (N <= 1)%Z -> chunk_loop N ws [] = ws.
Proof.
  intros HN. induction ws as [|w ws IH]; [done|]. simpl.
  replace (N <=? Z.of_nat 1)%Z with true by (symmetry; apply Z.leb_le; lia).
  by rewrite IH.
Qed.

(** With [max_tokens <= 1] (including 0 and negative values) the test
    [len(current) >= max_tokens] holds after every word, so each word of
    [text.split()] is a chunk of its own. *)
Theorem chunk_text_small_max (text : string) (N : Z) :
  (N <= 1)%Z -> chunk_text text N = split text.
Proof. intros HN. unfold chunk_text. by apply chunk_loop_small. Qed.

Lemma chunk_text_small_max_witness :
  (0 <= 1)%Z /\ chunk_text " a  bc d " 0 = ["a"; "bc"; "d"].
Proof.
  split; [lia|]. rewrite (chunk_text_small_max " a  bc d " 0) by lia.
  reflexivity.
Defined.

End ChunkMore.

Module SplitMore.
Import SplitText.

Lemma split_loop_step (f : nat) (text : string) (cs co a : Z) :
  (0 < cs - co)%Z -> (1 <= f)%nat ->
  (Z.of_nat (String.length text) <= a + (cs - co) * (Z.of_nat f - 1))%Z ->
  exists l, split_loop f text cs co a = Some l /\
    (Z.of_nat (length l)
     = ((Z.max 0 (Z.of_nat (String.length text) - a)) + (cs - co) - 1) / (cs - co))%Z /\
    (forall i, (i < length l)%nat ->
       nth i l EmptyString
       = py_slice text (a + (cs - co) * Z.of_nat i)%Z (a + (cs - co) * Z.of_nat i + cs)%Z).
Proof.
  intros Hs. revert a. induction f as [|f IH]; intros a Hf Hlen; [lia|].
  simpl. destruct (a <? Z.of_nat (String.length text))%Z eqn:Hlt.
  - apply Z.ltb_lt in Hlt.
    destruct (Nat.eq_dec f 0) as [->|Hf0]; [lia|].
    destruct (IH (a + (cs - co))%Z) as (l & Hl & Hn & Hnth); [lia|lia|].
    rewrite Hl. eexists; split; [reflexivity|]. split.
    + simpl length. rewrite Nat2Z.inj_succ, Hn.
      remember (Z.of_nat (String.length text)) as L eqn:EL.
      remember (cs - co)%Z as s eqn:Es. clear - Hlt Hs.
      rewrite (Z.max_r 0 (L - a)) by lia.
      destruct (Z.le_gt_cases (L - (a + s)) 0) as [Hle|Hgt].
      * rewrite Z.max_l by lia. rewrite (Z.div_small (0 + s - 1) s) by lia.
        change (Z.succ 0) with 1%Z. apply Z.div_unique with (L - a - 1)%Z; lia.
      * rewrite Z.max_r by lia.
        replace (L - a + s - 1)%Z with ((L - (a + s) + s - 1) + 1 * s)%Z by lia.
        rewrite Z.div_add by lia. lia.
    + intros [|i] Hi; simpl.
      * f_equal; lia.
      * rewrite Hnth by (simpl in Hi; lia). f_equal; lia.
  - apply Z.ltb_ge in Hlt. exists []. split; [done|]. split; [|simpl; lia].
    rewrite Z.max_l by lia. simpl. symmetry. apply Z.div_small. lia.
Qed.

(** For any [chunk_size] and [chunk_overlap] with a positive step
    [chunk_size - chunk_overlap], [split_text] stops and gives
    [ceil(len(text) / step)] chunks (none for the empty text), chunk [i]
    being [text[i*step : i*step + chunk_size]]. *)
Theorem split_text_positive_step (text : string) (chunk_size chunk_overlap : Z) :
  (chunk_overlap < chunk_size)%Z ->
  exists l, split_text text chunk_size chunk_overlap = Some l /\
    (Z.of_nat (length l)
     = (Z.of_nat (String.length text) + (chunk_size - chunk_overlap) - 1)
       / (chunk_size - chunk_overlap))%Z /\
    (forall i, (i < length l)%nat ->
       nth i l EmptyString
       = py_slice text ((chunk_size - chunk_overlap) * Z.of_nat i)%Z
                       ((chunk_size - chunk_overlap) * Z.of_nat i + chunk_size)%Z).
Proof.
  intros Hlt. unfold split_text.
  destruct (split_loop_step (S (String.length text)) text chunk_size chunk_overlap 0)
    as (l & Hl & Hn & Hnth); [lia|lia|nia|].
  exists l. split; [done|]. split.
  - rewrite Hn. f_equal. rewrite Z.sub_0_r, Z.max_r by lia. reflexivity.
  - intros i Hi. rewrite Hnth by done. f_equal; lia.
Qed.

Lemma split_text_positive_step_witness :
  (2 < 4)%Z /\ split_text "abcdefg" 4 2 = Some ["abcd"; "cdef"; "efg"; "g"].
Proof.
  split; [lia|].
  destruct (split_text_positive_step "abcdefg" 4 2 ltac:(lia)) as (l & Hl & _).
  rewrite Hl. f_equal. vm_compute in Hl. by injection Hl as <-.
Defined.

Lemma split_loop_stuck (f : nat) (text : string) (cs co a : Z) :
  (cs - co <= 0)%Z -> (a < Z.of_nat (String.length text))%Z ->
  split_loop f text cs co a = None.
Proof.
  revert a. induction f as [|f IH]; intros a Hs Ha; [done|]. simpl.
  destruct (a <? Z.of_nat (String.length text))%Z eqn:E; [|apply Z.ltb_ge in E; lia].
  rewrite IH; [done|done|lia].
Qed.

(** When [chunk_overlap >= chunk_size] the [while] loop of [split_text]
    never stops on a non-empty text: [start] never grows, so no number of
    iterations ends it. *)
Theorem split_text_nonpositive_step_diverges (text : string)
    (chunk_size chunk_overlap : Z) (fuel : nat) :
  (chunk_size <= chunk_overlap)%Z -> text <> EmptyString ->
  split_loop fuel text chunk_size chunk_overlap 0 = None.
Proof.
  intros Hs Ht. apply split_loop_stuck; [lia|].
  destruct text as [|c t]; [done|]. simpl. lia.
Qed.

Lemma split_text_nonpositive_step_diverges_witness :
  (200 <= 200)%Z /\ "abc" <> EmptyString /\ split_loop 1000 "abc" 200 200 0 = None.
Proof.
  split; [lia|]. split; [discriminate|].
  apply split_text_nonpositive_step_diverges; [lia|discriminate].
Defined.

End SplitMore.

Module LLMMore.
Import Py PyStr Backend LLM.

Section Client.
Context `{Externals}.

(** [_retry_with_backoff] with [max_retries = 0] returns [None] at once
    without calling [func]; with [max_retries >= 1] it never falls through
    to [return None]: it returns [func]'s value or raises. *)
Theorem retry_never_none {A} (func : M A) (max_retries : nat) (initial_delay : Q)
    (w : World) :
  (max_retries = 0%nat ->
   retry_with_backoff func max_retries initial_delay w = (Ok None, w)) /\
  ((1 <= max_retries)%nat ->
   fst (retry_with_backoff func max_retries initial_delay w) <> Ok None).
Proof.
  split.
  - intros ->. reflexivity.
  - intros Hm. unfold retry_with_backoff.
    apply LLMFacts.retry_go_not_none; lia.
Qed.

(** [embed] when the provider answers every embedding request (possibly
    differently at each call): one call per text, in order, and the
    answer of the [i]-th call is the [i]-th vector. *)
Theorem embed_all_answered (texts : list string) (w : World) :
  (forall n t, exists v, embed_content n t = Ok (Some v)) ->
  exists vs,
  fst (embed texts w) = Ok vs /\ length vs = length texts /\
  (forall i t v, texts !! i = Some t -> vs !! i = Some v ->
     embed_content (provider_calls w + i) t = Ok (Some v)) /\
  provider_calls (snd (embed texts w)) = (provider_calls w + length texts)%nat /\
  events (snd (embed texts w)) = events w ++ map ECallEmbed texts /\
  DOC_STORE (snd (embed texts w)) = DOC_STORE w /\
  response_cache (snd (embed texts w)) = response_cache w.
Proof.
  intros Hf.
  assert (Hone : forall t w, exists v, embed_content (provider_calls w) t = Ok (Some v) /\
            embed_one t w = (Ok v, add_event (ECallEmbed t) (tick_calls w))).
  { intros t w'. destruct (Hf (provider_calls w') t) as [v Hv]. exists v. split; [done|].
    cbv [embed_one retry_with_backoff retry_go try_except bindM retM call_embed liftR].
    rewrite Hv. reflexivity. }
  revert w. induction texts as [|t ts IH]; intros w.
  - exists []. simpl. rewrite app_nil_r. repeat split; try lia.
    intros i t v Hi. by rewrite lookup_nil in Hi.
  - destruct (Hone t w) as (v & Hv & Ho).
    cbn [embed]. unfold bindM. rewrite Ho.
    destruct (IH (add_event (ECallEmbed t) (tick_calls w)))
      as (vs & I1 & I2 & I3 & I4 & I5 & I6 & I7).
    destruct (embed ts _) as [[vs'|e] w2] eqn:E; simpl in *; [|done].
    injection I1 as ->. exists (v :: vs). rewrite I4, I5, I6, I7.
    split; [done|]. split; [simpl; lia|]. split; [|split; [lia|split; [|done]]].
    + intros [|i] t' v' Hi Hv'; simpl in Hi, Hv'.
      * injection Hi as <-. injection Hv' as <-. by rewrite Nat.add_0_r.
      * rewrite <- (I3 i t' v' Hi Hv'). f_equal. simpl. lia.
    + by rewrite <- app_assoc.
Qed.

(** Embedding a text that the provider rate-limits at every call (the
    error may differ from call to call): three calls, sleeps of 1 and 2
    seconds between them, then a warning with the third call's error and
    the zero vector. *)
Theorem embed_one_rate_limited (text : string) (w : World) :
  (forall n, exists e, embed_content n text = PyErr e /\ is_rate_limit (str_exn e) = true) ->
  exists e, embed_content (provider_calls w + 2) text = PyErr e /\
  fst (embed_one text w) = Ok zero_vector /\
  provider_calls (snd (embed_one text w)) = (provider_calls w + 3)%nat /\
  events (snd (embed_one text w)) = events w ++
    [ECallEmbed text; EWarning "Rate limited. Retrying"; ESleep 1;
     ECallEmbed text; EWarning "Rate limited. Retrying"; ESleep 2;
     ECallEmbed text;
     EWarning ("Embedding error: " +:+ str_exn e +:+ ". Using zero vector.")] /\
  response_cache (snd (embed_one text w)) = response_cache w.
Proof.
  intros He.
  destruct (He (provider_calls w)) as (e0 & H0 & R0).
  destruct (He (S (provider_calls w))) as (e1 & H1 & R1).
  destruct (He (S (S (provider_calls w)))) as (e2 & H2 & R2).
  exists e2. replace (provider_calls w + 2)%nat with (S (S (provider_calls w))) by lia.
  split; [exact H2|].
  cbv [embed_one retry_with_backoff retry_go try_except bindM retM call_embed liftR log raise].
  repeat progress (rewrite ?H0, ?H1, ?H2, ?R0, ?R1, ?R2; cbn).
  repeat split; [lia|]. rewrite <- !app_assoc. reflexivity.
Qed.

(** Generating for a prompt that is not cached while the provider
    rate-limits every call (the error may differ from call to call): four
    calls, sleeps of 2, 4 and 8 seconds, then ["Error: " + str(e)] for the
    fourth call's error [e] is returned and cached under the prompt's key. *)
Theorem generate_rate_limited (sp up : string) (w : World) :
  (forall n, exists e, generate_content n (sp +:+ newline +:+ newline +:+ up) = PyErr e /\
                       is_rate_limit (str_exn e) = true) ->
  response_cache w !! py_hash (sp +:+ up) = None ->
  exists e, generate_content (provider_calls w + 3) (sp +:+ newline +:+ newline +:+ up) = PyErr e /\
  fst (generate sp up w) = Ok (Some ("Error: " +:+ str_exn e)) /\
  response_cache (snd (generate sp up w))
    = <[py_hash (sp +:+ up) := Some ("Error: " +:+ str_exn e)]> (response_cache w) /\
  provider_calls (snd (generate sp up w)) = (provider_calls w + 4)%nat /\
  events (snd (generate sp up w)) = events w ++
    [ECallGenerate (sp +:+ newline +:+ newline +:+ up);
     EWarning "Rate limited. Retrying"; ESleep 2;
     ECallGenerate (sp +:+ newline +:+ newline +:+ up);
     EWarning "Rate limited. Retrying"; ESleep 4;
     ECallGenerate (sp +:+ newline +:+ newline +:+ up);
     EWarning "Rate limited. Retrying"; ESleep 8;
     ECallGenerate (sp +:+ newline +:+ newline +:+ up);
     EError ("Generation error: " +:+ str_exn e)] /\
  DOC_STORE (snd (generate sp up w)) = DOC_STORE w.
Proof.
  intros He Hk.
  destruct (He (provider_calls w)) as (e0 & H0 & R0).
  destruct (He (S (provider_calls w))) as (e1 & H1 & R1).
  destruct (He (S (S (provider_calls w)))) as (e2 & H2 & R2).
  destruct (He (S (S (S (provider_calls w))))) as (e3 & H3 & R3).
  exists e3. replace (provider_calls w + 3)%nat with (S (S (S (provider_calls w)))) by lia.
  split; [exact H3|].
  cbv [generate retry_with_backoff retry_go generate_func try_except bindM retM
       call_generate liftR log raise get_cache put_cache].
  rewrite Hk. repeat progress (rewrite ?H0, ?H1, ?H2, ?H3, ?R0, ?R1, ?R2, ?R3; cbn).
  repeat split; [lia|]. rewrite <- !app_assoc. reflexivity.
Qed.

Lemma generate_caches_result (sp up : string) (w : World) :
  exists v, fst (generate sp up w) = Ok v /\
    response_cache (snd (generate sp up w)) !! py_hash (sp +:+ up) = Some v.
Proof.
  unfold generate, bindM, get_cache. simpl.
  destruct (response_cache w !! py_hash (sp +:+ up)) as [v|] eqn:Hv.
  - by exists v.
  - unfold try_except, bindM.
    destruct (retry_with_backoff (generate_func sp up) 4 2 w) as [[o|e] w1]; simpl.
    + exists o. split; [done|]. apply lookup_insert_eq.
    + eexists. split; [done|]. apply lookup_insert_eq.
Qed.

(** The cache key is [hash(system_prompt + user_prompt)]: once [generate]
    has run for one pair of prompts, any pair with the same key (e.g. the
    same concatenation split at another place) gets the same text back
    from the cache, with no provider call and no change to the state. *)
Theorem generate_shared_key (sp1 up1 sp2 up2 : string) (w : World) :
  py_hash (sp1 +:+ up1) = py_hash (sp2 +:+ up2) ->
  generate sp2 up2 (snd (generate sp1 up1 w))
  = (fst (generate sp1 up1 w), snd (generate sp1 up1 w)).
Proof.
  intros Hk. destruct (generate_caches_result sp1 up1 w) as (v & H1 & H2).
  rewrite H1. set (w' := snd (generate sp1 up1 w)) in *.
  unfold generate, bindM, get_cache. simpl. rewrite <- Hk, H2. reflexivity.
Qed.

End Client.

Lemma retry_never_none_witness :
  (1 <= 3)%nat /\
  fst (@retry_with_backoff _ (@call_embed Sample.sample "x") 3 1 App.init_world) <> Ok None.
Proof.
  split; [lia|].
  apply (proj2 (@retry_never_none _ (@call_embed Sample.sample "x") 3 1 App.init_world)).
  lia.
Defined.

Definition always_answers : Backend.Externals := {|
  PdfReader := fun _ => Ok [];
  embed_content := fun n t => Ok (Some [inject_Z (Z.of_nat (n + String.length t))]);
  generate_content := fun _ _ => Ok "ok";
  py_hash := fun s => Z.of_nat (String.length s);
  cosine := fun _ _ => 0%Q;
  to_f32 := fun x => x;
  uuid4 := Sample.sample_id
|}.

Definition always_limited : Backend.Externals := {|
  PdfReader := fun _ => Ok [];
  embed_content := fun n _ =>
    if (n =? 0)%nat then PyErr (Exn "ResourceExhausted" "429 quota exceeded")
    else PyErr (Exn "TooManyRequests" "Rate limit reached");
  generate_content := fun n _ =>
    if (n =? 0)%nat then PyErr (Exn "ResourceExhausted" "429 quota exceeded")
    else PyErr (Exn "TooManyRequests" "Rate limit reached");
  py_hash := fun s => Z.of_nat (String.length s);
  cosine := fun _ _ => 0%Q;
  to_f32 := fun x => x;
  uuid4 := Sample.sample_id
|}.

Lemma embed_all_answered_witness :
  exists vs, fst (@embed always_answers ["ab"; "c"] App.init_world) = Ok vs /\
             vs = [[2%Q]; [2%Q]].
Proof.
  destruct (@embed_all_answered always_answers ["ab"; "c"] App.init_world)
    as (vs & Hvs & _).
  { intros n t. eexists. reflexivity. }
  exists vs. split; [exact Hvs|].
  assert (E : fst (@embed always_answers ["ab"; "c"] App.init_world) = Ok [[2%Q]; [2%Q]])
    by reflexivity.
  rewrite Hvs in E. by injection E.
Defined.

Lemma embed_one_rate_limited_witness :
  fst (@embed_one always_limited "x" App.init_world) = Ok zero_vector /\
  exists e, @embed_content always_limited 2 "x" = PyErr e.
Proof.
  destruct (@embed_one_rate_limited always_limited "x" App.init_world)
    as (e & He & Hv & _).
  { intros [|n]; eexists; split; reflexivity. }
  split; [exact Hv|]. by exists e.
Defined.

Lemma generate_rate_limited_witness :
  fst (@generate always_limited "s" "u" App.init_world)
  = Ok (Some ("Error: " +:+ "Rate limit reached")).
Proof.
  destruct (@generate_rate_limited always_limited "s" "u" App.init_world)
    as (e & He & Hg & _).
  { intros [|n]; eexists; split; reflexivity. }
  { reflexivity. }
  rewrite Hg. simpl in He. injection He as <-. reflexivity.
Defined.

Lemma generate_shared_key_witness :
  "a" +:+ "bc" = "ab" +:+ "c" /\
  @generate Sample.sample "ab" "c" (snd (@generate Sample.sample "a" "bc" App.init_world))
  = (fst (@generate Sample.sample "a" "bc" App.init_world),
     snd (@generate Sample.sample "a" "bc" App.init_world)).
Proof.
  split; [reflexivity|].
  apply (@generate_shared_key Sample.sample "a" "bc" "ab" "c" App.init_world).
  reflexivity.
Defined.

End LLMMore.

Module AppMore.
Import Py PyStr Backend LLM LLMFacts App AppFacts.

Section Facts.
Context `{Externals}.

(** What [/upload] did, read off its result. *)
Lemma upload_cases (filename : string) (content : bytes) (w : World) :
  response_cache (snd (upload_pdf filename content w)) = response_cache w /\
  match fst (upload_pdf filename content w) with
  | PyErr _ => DOC_STORE (snd (upload_pdf filename content w)) = DOC_STORE w /\
               uuid_count (snd (upload_pdf filename content w)) = uuid_count w
  | Ok r => exists text vs emb,
      endswith (lower filename) ".pdf" = true /\
      Extract.extract_text_from_pdf PdfReader (PyBytes content) = Ok text /\
      strip text <> EmptyString /\ Chunk.chunk_text text 400 <> [] /\
      fst (embed (Chunk.chunk_text text 400) w) = Ok vs /\
      np_array_f32 vs = Ok emb /\
      r = UploadResponse (uuid4 (uuid_count w)) (Z.of_nat (length (Chunk.chunk_text text 400))) /\
      DOC_STORE (snd (upload_pdf filename content w))
        = <[uuid4 (uuid_count w) := MkDoc (Chunk.chunk_text text 400) emb]> (DOC_STORE w) /\
      uuid_count (snd (upload_pdf filename content w)) = S (uuid_count w)
  end.
Proof.
  unfold upload_pdf.
  remember (Extract.extract_text_from_pdf PdfReader (PyBytes content)) as ex eqn:Ex.
  destruct (endswith (lower filename) ".pdf") eqn:Hpdf; [|simpl; done].
  unfold log_and_reraise, try_except, bindM, liftR. simpl.
  destruct ex as [text|e]; simpl; [|done].
  remember (Chunk.chunk_text text 400) as cs eqn:Hcs.
  destruct (frame_embed cs w) as (E1 & E2 & E3 & _ & E5).
  remember (embed cs) as emb eqn:Hemb.
  destruct (strip text) as [|c s] eqn:Hst; simpl; [done|].
  destruct cs as [|c0 cs']; simpl; [done|].
  destruct (emb w) as [r w1] eqn:Ew. simpl in *.
  destruct r as [vs|e]; [|done].
  destruct (np_array_f32 vs) as [a|e] eqn:Ha; simpl; [|done].
  split; [done|].
  exists text, vs, a. rewrite E1, E3, <- Hcs.
  change (embed (c0 :: cs') w)
    with ((let* v := embed_one c0 in let* vs := embed cs' in retM (v :: vs)) w).
  rewrite <- Hemb, Ew. repeat split; try done. rewrite Hst. discriminate.
Qed.

(** A successful [/upload] stored one record under the next uuid: its
    chunks are [chunk_text(text, 400)] of the extracted text (at least
    one), with one embedding row per chunk, and the response's
    [num_chunks] is their number. *)
Theorem upload_success_record (filename : string) (content : bytes) (w : World)
    (doc_id : string) (num_chunks : Z) :
  fst (upload_pdf filename content w) = Ok (UploadResponse doc_id num_chunks) ->
  exists text d,
    Extract.extract_text_from_pdf PdfReader (PyBytes content) = Ok text /\
    doc_id = uuid4 (uuid_count w) /\
    DOC_STORE (snd (upload_pdf filename content w)) = <[doc_id := d]> (DOC_STORE w) /\
    chunks d = Chunk.chunk_text text 400 /\
    num_chunks = Z.of_nat (length (chunks d)) /\
    length (embeddings d) = length (chunks d) /\
    (1 <= length (chunks d))%nat.
Proof.
  intros Hok. destruct (upload_cases filename content w) as [_ U]. rewrite Hok in U.
  destruct U as (text & vs & emb & _ & Hx & _ & Hne & Hvs & Ha & Hr & Hs & _).
  injection Hr as -> ->. exists text, (MkDoc (Chunk.chunk_text text 400) emb).
  simpl. repeat split; try done.
  - rewrite (np_array_f32_length _ _ Ha).
    destruct (embed_store (Chunk.chunk_text text 400) w) as (_ & _ & vs' & Hv' & Hl).
    rewrite Hvs in Hv'. injection Hv' as <-. exact Hl.
  - destruct (Chunk.chunk_text text 400); [done|simpl; lia].
Qed.

(** Code that keeps the response cache free of [None]. *)
Definition keeps_cache {A} (m : M A) : Prop :=
  forall w, cache_strings w -> cache_strings (snd (m w)).

Lemma kc_ret {A} (a : A) : keeps_cache (retM a).
Proof. intros w Hw. exact Hw. Qed.

Lemma kc_raise {A} (e : exn) : keeps_cache (A := A) (raise e).
Proof. intros w Hw. exact Hw. Qed.

Lemma kc_liftR {A} (r : Result A) : keeps_cache (liftR r).
Proof. intros w Hw. exact Hw. Qed.

Lemma kc_log (ev : event) : keeps_cache (log ev).
Proof. intros w Hw. exact Hw. Qed.

Lemma kc_get_store : keeps_cache get_store.
Proof. intros w Hw. exact Hw. Qed.

Lemma kc_bind {A B} (m : M A) (k : A -> M B) :
  keeps_cache m -> (forall a, keeps_cache (k a)) -> keeps_cache (bindM m k).
Proof.
  intros Hm Hk w Hw. unfold bindM. specialize (Hm w Hw).
  destruct (m w) as [[a|e] w1]; simpl in *; [by apply Hk|done].
Qed.

Lemma kc_try {A} (m : M A) (h : exn -> M A) :
  keeps_cache m -> (forall e, keeps_cache (h e)) -> keeps_cache (try_except m h).
Proof.
  intros Hm Hh w Hw. unfold try_except. specialize (Hm w Hw).
  destruct (m w) as [[a|e] w1]; simpl in *; [done|by apply Hh].
Qed.

Lemma kc_frame {A} (m : M A) n Qa Qe : frame m n Qa Qe -> keeps_cache m.
Proof.
  intros Hf w Hw. destruct (Hf w) as (_ & H2 & _). unfold cache_strings. by rewrite H2.
Qed.

Lemma kc_embed (texts : list string) : keeps_cache (embed texts).
Proof. eapply kc_frame, frame_embed. Qed.

Lemma kc_generate (sp up : string) : keeps_cache (generate sp up).
Proof.
  intros w Hw. unfold generate, bindM, get_cache. simpl.
  destruct (response_cache w !! py_hash (sp +:+ up)) as [v|]; [done|].
  unfold try_except, bindM.
  pose proof (frame_retry_go (generate_func sp up) 4 2 _ _ (frame_generate_func sp up) 4 0 w)
    as (_ & H2 & _).
  pose proof (retry_go_not_none (generate_func sp up) 4 2 4 0 w ltac:(lia) ltac:(lia)) as Hnn.
  unfold retry_with_backoff.
  destruct (retry_go (generate_func sp up) 4 2 0 4 w) as [[o|e] w1]; simpl in *.
  - destruct o as [s|]; [|done]. unfold cache_strings. simpl.
    apply map_Forall_insert_2; [done|]. rewrite H2. exact Hw.
  - unfold cache_strings. simpl.
    apply map_Forall_insert_2; [done|]. rewrite H2. exact Hw.
Qed.

Lemma kc_reraise {A} (m : M A) : keeps_cache m -> keeps_cache (log_and_reraise m).
Proof.
  intros Hm. apply kc_try; [done|]. intros e.
  apply kc_bind; [apply kc_log|]. intros _. apply kc_raise.
Qed.

Ltac kc_auto :=
  repeat first
    [ apply kc_embed | apply kc_generate | apply kc_reraise
    | apply kc_bind | apply kc_ret | apply kc_raise
    | apply kc_liftR | apply kc_log | apply kc_get_store | intros ].

Lemma kc_handle (req : request) : keeps_cache (handle req).
Proof.
  destruct req as [f c|i q|i|i q|]; simpl.
  - intros w Hw. destruct (upload_cases f c w) as [U _].
    unfold cache_strings. by rewrite U.
  - unfold ask_question. apply kc_bind; [apply kc_get_store|]. intros st.
    destruct (st !! i); kc_auto.
  - unfold summarize. apply kc_bind; [apply kc_get_store|]. intros st.
    destruct (st !! i); kc_auto.
  - unfold search. apply kc_bind; [apply kc_get_store|]. intros st.
    destruct (st !! i); kc_auto.
  - apply kc_ret.
Qed.

Lemma reachable_cache_strings_aux (w : World) : reachable w -> cache_strings w.
Proof.
  induction 1 as [|w req Hr IH].
  - apply map_Forall_empty.
  - by apply kc_handle.
Qed.

(** In every reachable state each value of [llm.response_cache] is a
    [str]: [generate] caches either the provider's text or an
    ["Error: ..."] string, never [None]. *)
Theorem reachable_cache_strings (w : World) :
  reachable w ->
  forall key v, response_cache w !! key = Some v -> exists s, v = Some s.
Proof.
  intros Hr key v Hv. pose proof (reachable_cache_strings_aux w Hr _ _ Hv) as Hn.
  destruct v as [s|]; [by exists s|done].
Qed.

Lemma generate_some (sp up : string) (w : World) :
  cache_strings w -> exists s, fst (generate sp up w) = Ok (Some s).
Proof.
  intros Hw. destruct (LLMMore.generate_caches_result sp up w) as (v & H1 & H2).
  pose proof (kc_generate sp up w Hw _ _ H2) as Hn.
  destruct v as [s|]; [by exists s|done].
Qed.

(** [/summary] on a stored document never fails in a reachable state:
    it answers the stripped text that [generate] returns for a prompt
    made of the document's first ten chunks only. *)
Theorem summarize_stored_doc (w : World) (doc_id : string) (d : Doc) :
  reachable w -> DOC_STORE w !! doc_id = Some d ->
  exists s,
    fst (generate summary_system_prompt
           ("PDF Content:" +:+ newline +:+ join nl2 (take 10 (chunks d)) +:+ nl2
            +:+ "Write a high-level summary:") w) = Ok (Some s) /\
    fst (summarize doc_id w) = Ok (SummaryResponse (strip s)).
Proof.
  intros Hr Hd. pose proof (reachable_cache_strings_aux w Hr) as Hc.
  destruct (generate_some summary_system_prompt
    ("PDF Content:" +:+ newline +:+ join nl2 (take 10 (chunks d)) +:+ nl2
     +:+ "Write a high-level summary:") w Hc) as [s Hs].
  exists s. split; [done|].
  cbv [summarize bindM get_store log_and_reraise try_except liftR retM].
  rewrite Hd.
  destruct (generate _ _ w) as [r w1] eqn:Eg. simpl in Hs. subst r.
  reflexivity.
Qed.

Lemma top_k_ok (q : vec) (doc_embs : list vec) (cs : list string) (k : Z) :
  (0 <= k)%Z -> length cs = length doc_embs ->
  Forall (fun r => length r = length q) doc_embs ->
  exists hits, TopK.top_k_chunks q doc_embs cs k = Ok hits /\
    length hits = Nat.min (Z.to_nat k) (length cs) /\
    Forall (fun h => In (fst h) cs) hits.
Proof.
  intros Hk Hlen Hdim.
  assert (Hb : forallb (fun r => length r =? length q) doc_embs = true).
  { apply forallb_forall. intros r Hr. apply Nat.eqb_eq.
    rewrite List.Forall_forall in Hdim. by apply Hdim. }
  unfold TopK.top_k_chunks, TopK.sims_row. rewrite Hb. simpl.
  set (sims := map (cosine q) doc_embs).
  set (sorted := TopK.argsort (map Qopp sims)).
  assert (Hperm : sorted ≡ₚ seq 0 (length doc_embs)).
  { unfold sorted. rewrite TopKFacts.argsort_perm. unfold sims. by rewrite !length_map. }
  assert (Hslen : length sorted = length doc_embs) by (rewrite Hperm; apply length_seq).
  set (m := Z.to_nat (SplitText.slice_bound (Z.of_nat (length sorted)) k)).
  assert (Hrange : Forall (fun i => i < length cs)%nat (take m sorted)).
  { apply List.Forall_forall. intros i Hi.
    apply list_elem_of_In in Hi.
    pose proof (elem_of_sublist _ _ _ Hi (sublist_take _ _)) as Hi'.
    rewrite Hperm in Hi'. apply elem_of_seq in Hi'. lia. }
  unfold TopK.py_take. fold sorted. fold m.
  rewrite TopKFacts.mapR_in_range by exact Hrange.
  eexists. split; [reflexivity|]. split.
  - rewrite length_map, length_take, Hslen, Hlen. unfold m, SplitText.slice_bound.
    rewrite Hslen. destruct (k <? 0)%Z eqn:E; [apply Z.ltb_lt in E; lia|]. lia.
  - apply List.Forall_forall. intros h Hh. apply in_map_iff in Hh as (i & <- & Hi).
    simpl. apply nth_In. rewrite List.Forall_forall in Hrange. by apply Hrange.
Qed.

Lemma np_array_rows (rows a : list vec) :
  np_array_f32 rows = Ok a -> a = map (map to_f32) rows.
Proof.
  unfold np_array_f32. destruct rows as [|r rows']; [by intros [= <-]|].
  destruct (forallb _ _); [|done]. by intros [= <-].
Qed.

Section Dim.
(** The provider's embeddings have 768 entries, as the zero vector that
    replaces a failed one ([text-embedding-004] answers 768). *)
Hypothesis embed_dim : forall n t v, embed_content n t = Ok (Some v) -> length v = 768.

Definition docs_dim (w : World) : Prop :=
  forall id d, DOC_STORE w !! id = Some d ->
    length (chunks d) = length (embeddings d) /\
    Forall (fun r => length r = 768) (embeddings d).

Lemma embed_rows (texts : list string) (w : World) :
  exists vs, fst (embed texts w) = Ok vs /\ length vs = length texts /\
    Forall (fun r => length r = 768) vs.
Proof.
  destruct (frame_embed texts w) as (_ & _ & _ & _ & H5).
  destruct (fst (embed texts w)) as [vs|e]; [|done]. destruct H5 as [Hl Hf].
  exists vs. split; [done|]. split; [done|].
  apply List.Forall_forall. intros v Hv. rewrite List.Forall_forall in Hf.
  destruct (Hf v Hv) as [->|(n & t & Ht)]; [reflexivity|]. by apply (embed_dim n t).
Qed.

Lemma np_array_ok (rows : list vec) :
  Forall (fun r => length r = 768) rows -> np_array_f32 rows = Ok (map (map to_f32) rows).
Proof.
  intros Hf. destruct rows as [|r rows']; [done|]. unfold np_array_f32.
  replace (forallb _ _) with true; [done|]. symmetry. apply forallb_forall.
  intros x Hx. apply Nat.eqb_eq. rewrite List.Forall_forall in Hf.
  rewrite (Hf x Hx), (Hf r); [done|by left].
Qed.

Lemma reachable_docs_dim (w : World) : reachable w -> docs_dim w.
Proof.
  induction 1 as [|w req Hr IH].
  - intros id d Hl. simpl in Hl. by rewrite lookup_empty in Hl.
  - destruct req as [f c|i q|i|i q|]; simpl.
    + destruct (upload_cases f c w) as [_ U].
      destruct (fst (upload_pdf f c w)) as [r|e].
      * destruct U as (text & vs & emb & _ & _ & _ & _ & Hvs & Ha & _ & Hs & _).
        intros id d Hl. rewrite Hs in Hl.
        destruct (decide (id = uuid4 (uuid_count w))) as [->|Hne].
        -- rewrite lookup_insert_eq in Hl. injection Hl as <-. simpl.
           destruct (embed_rows (Chunk.chunk_text text 400) w) as (vs' & Hv' & Hl' & Hf).
           rewrite Hvs in Hv'. injection Hv' as <-.
           rewrite (np_array_rows _ _ Ha), length_map. split; [done|].
           apply List.Forall_forall. intros x0 Hr'. apply in_map_iff in Hr' as (x & <- & Hx).
           rewrite length_map. rewrite List.Forall_forall in Hf. by apply Hf.
        -- rewrite lookup_insert_ne in Hl by congruence. by apply (IH id).
      * destruct U as [U _]. intros id d Hl. rewrite U in Hl. by apply (IH id).
    + intros id d Hl. destruct (keeps_ask i q w) as [K _]. rewrite K in Hl. by apply (IH id).
    + intros id d Hl. destruct (keeps_summarize i w) as [K _]. rewrite K in Hl. by apply (IH id).
    + intros id d Hl. destruct (keeps_search i q w) as [K _]. rewrite K in Hl. by apply (IH id).
    + exact IH.
Qed.

(** With 768-entry provider embeddings, [/search] on a stored document
    never fails in a reachable state: it answers [min(5, number of
    chunks)] hits, each one a chunk of that document. *)
Theorem search_stored_doc (w : World) (doc_id query : string) (d : Doc) :
  reachable w -> DOC_STORE w !! doc_id = Some d ->
  exists hits,
    fst (search doc_id query w) = Ok (SearchResponse hits) /\
    length hits = Nat.min 5 (length (chunks d)) /\
    Forall (fun h => In (fst h) (chunks d)) hits.
Proof.
  intros Hr Hd. destruct (reachable_docs_dim w Hr doc_id d Hd) as [Hlen Hrows].
  cbv [search bindM get_store log_and_reraise try_except liftR retM].
  rewrite Hd.
  destruct (embed_rows [query] w) as (vs & Hvs & Hl & Hf).
  destruct (embed [query] w) as [r w1] eqn:E. simpl in Hvs. subst r.
  destruct vs as [|v [|v' vs']]; simpl in Hl; try lia.
  inversion Hf as [|? ? Hv _]; subst.
  destruct (top_k_ok (map to_f32 v) (embeddings d) (chunks d) 5) as (hits & Ht & Hn & Hin);
    [lia|done| |].
  { apply List.Forall_forall. intros x Hx. rewrite length_map, Hv.
    rewrite List.Forall_forall in Hrows. by apply Hrows. }
  simpl. rewrite Ht. exists hits. done.
Qed.

(** With 768-entry provider embeddings, [/ask] on a stored document never
    fails in a reachable state: it answers the stripped text [generate]
    returns. *)
Theorem ask_stored_doc (w : World) (doc_id question : string) (d : Doc) :
  reachable w -> DOC_STORE w !! doc_id = Some d ->
  exists answer, fst (ask_question doc_id question w) = Ok (AskResponse answer).
Proof.
  intros Hr Hd. destruct (reachable_docs_dim w Hr doc_id d Hd) as [Hlen Hrows].
  pose proof (reachable_cache_strings_aux w Hr) as Hc.
  cbv [ask_question bindM get_store log_and_reraise try_except liftR retM].
  rewrite Hd.
  destruct (embed_rows [question] w) as (vs & Hvs & Hl & Hf).
  pose proof (kc_embed [question] w Hc) as Hc1.
  destruct (embed [question] w) as [r w1] eqn:E. simpl in Hvs, Hc1. subst r.
  destruct vs as [|v [|v' vs']]; simpl in Hl; try lia.
  inversion Hf as [|? ? Hv _]; subst.
  destruct (top_k_ok (map to_f32 v) (embeddings d) (chunks d) 5) as (hits & Ht & _ & _);
    [lia|done| |].
  { apply List.Forall_forall. intros x Hx. rewrite length_map, Hv.
    rewrite List.Forall_forall in Hrows. by apply Hrows. }
  simpl. rewrite Ht.
  destruct (generate_some ask_system_prompt
    ("Context:" +:+ newline +:+ join nl2 (map fst hits) +:+ nl2 +:+ "Question: "
     +:+ question +:+ nl2 +:+ "Answer in detail:") w1 Hc1) as [s Hs].
  destruct (generate _ _ w1) as [r w2] eqn:Eg. simpl in Hs. subst r.
  simpl. eexists. reflexivity.
Qed.

(** With 768-entry provider embeddings, an upload of a [.pdf] whose
    extracted text is not blank and gives chunks always succeeds: it
    returns the next uuid and the number of chunks. *)
Theorem upload_pdf_succeeds (filename : string) (content : bytes) (w : World) (text : string) :
  endswith (lower filename) ".pdf" = true ->
  Extract.extract_text_from_pdf PdfReader (PyBytes content) = Ok text ->
  strip text <> EmptyString -> Chunk.chunk_text text 400 <> [] ->
  fst (upload_pdf filename content w)
  = Ok (UploadResponse (uuid4 (uuid_count w))
          (Z.of_nat (length (Chunk.chunk_text text 400)))).
Proof.
  intros Hpdf Hex Hst Hcs. unfold upload_pdf. rewrite Hpdf, Hex.
  cbv [negb log_and_reraise try_except bindM liftR new_uuid get_store put_store retM].
  destruct (embed_rows (Chunk.chunk_text text 400) w) as (vs & Hvs & Hl & Hf).
  destruct (frame_embed (Chunk.chunk_text text 400) w) as (_ & _ & E3 & _).
  remember (Chunk.chunk_text text 400) as cs eqn:Ecs.
  remember (embed cs) as emb eqn:Hemb.
  destruct (strip text) eqn:Es; [contradiction|].
  destruct cs as [|c0 cs']; [contradiction|].
  destruct (emb w) as [r w1] eqn:Ew. simpl in Hvs, E3. subst r.
  rewrite np_array_ok by done. simpl. by rewrite E3.
Qed.

End Dim.

Section Fresh.
Hypothesis uuid4_inj : forall m n, uuid4 m = uuid4 n -> m = n.

(** When [uuid4()] never repeats, the number of records in [DOC_STORE]
    is the number of uuids drawn: every successful [/upload] adds one
    record and no request removes one. *)
Theorem reachable_store_size (w : World) :
  reachable w -> size (DOC_STORE w) = uuid_count w.
Proof.
  induction 1 as [|w req Hr IH].
  - simpl. apply map_size_empty.
  - pose proof (reachable_inv uuid4_inj w Hr) as [_ Hid].
    destruct req as [f c|i q|i|i q|]; simpl.
    + destruct (upload_cases f c w) as [_ U].
      destruct (fst (upload_pdf f c w)) as [r|e].
      * destruct U as (text & vs & emb & _ & _ & _ & _ & _ & _ & _ & Hs & Hu).
        rewrite Hs, Hu, map_size_insert_None; [by rewrite IH|].
        destruct (DOC_STORE w !! uuid4 (uuid_count w)) as [d'|] eqn:E; [|done].
        destruct (Hid _ _ E) as (j & Hj & Hju). apply uuid4_inj in Hju. lia.
      * destruct U as [U1 U2]. by rewrite U1, U2.
    + destruct (keeps_ask i q w) as [K1 K2]. by rewrite K1, K2.
    + destruct (keeps_summarize i w) as [K1 K2]. by rewrite K1, K2.
    + destruct (keeps_search i q w) as [K1 K2]. by rewrite K1, K2.
    + exact IH.
Qed.

End Fresh.

(** At most [k] provider calls. *)
Definition costs {A} (m : M A) (k : nat) : Prop :=
  forall w, (provider_calls (snd (m w)) <= provider_calls w + k)%nat.

Lemma costs_frame {A} (m : M A) k Qa Qe : frame m k Qa Qe -> costs m k.
Proof. intros Hf w. destruct (Hf w) as (_ & _ & _ & H4 & _). lia. Qed.

Lemma costs_weaken {A} (m : M A) k k' : costs m k -> (k <= k')%nat -> costs m k'.
Proof. intros Hm Hk w. specialize (Hm w). lia. Qed.

Lemma costs_ret {A} (a : A) : costs (retM a) 0.
Proof. intros w. simpl. lia. Qed.

Lemma costs_raise {A} (e : exn) : costs (A := A) (raise e) 0.
Proof. intros w. simpl. lia. Qed.

Lemma costs_liftR {A} (r : Result A) : costs (liftR r) 0.
Proof. intros w. simpl. lia. Qed.

Lemma costs_log (ev : event) : costs (log ev) 0.
Proof. intros w. simpl. lia. Qed.

Lemma costs_get_store : costs get_store 0.
Proof. intros w. simpl. lia. Qed.

Lemma costs_bind {A B} (m : M A) (k : A -> M B) a b :
  costs m a -> (forall x, costs (k x) b) -> costs (bindM m k) (a + b).
Proof.
  intros Hm Hk w. unfold bindM. specialize (Hm w).
  destruct (m w) as [[x|e] w1]; simpl in *; [|lia].
  specialize (Hk x w1). lia.
Qed.

Lemma costs_try {A} (m : M A) (h : exn -> M A) a b :
  costs m a -> (forall e, costs (h e) b) -> costs (try_except m h) (a + b).
Proof.
  intros Hm Hh w. unfold try_except. specialize (Hm w).
  destruct (m w) as [[x|e] w1]; simpl in *; [lia|].
  specialize (Hh e w1). lia.
Qed.

Lemma costs_reraise {A} (m : M A) k : costs m k -> costs (log_and_reraise m) k.
Proof.
  intros Hm. rewrite <- (Nat.add_0_r k). apply costs_try; [done|]. intros e.
  apply (costs_bind _ _ 0 0); [apply costs_log|]. intros _. apply costs_raise.
Qed.

Lemma costs_generate (sp up : string) : costs (generate sp up) 4.
Proof.
  intros w. unfold generate, bindM, get_cache. simpl.
  destruct (response_cache w !! py_hash (sp +:+ up)); simpl; [lia|].
  unfold try_except, bindM.
  pose proof (frame_retry_go (generate_func sp up) 4 2 _ _ (frame_generate_func sp up) 4 0 w)
    as (_ & _ & _ & H4 & _).
  unfold retry_with_backoff.
  destruct (retry_go (generate_func sp up) 4 2 0 4 w) as [[o|e] w1]; simpl in *; lia.
Qed.

Lemma costs_not_found (e : exn) (k : nat) :
  costs (A := response) (let* _ := log (EError "Doc ID not found") in raise e) k.
Proof.
  apply costs_weaken with 0%nat; [|lia].
  apply (costs_bind _ _ 0 0); [apply costs_log|]. intros _. apply costs_raise.
Qed.

(** Provider calls per request: [/ask] makes at most 7 (3 embedding
    attempts for the question, 4 generation attempts), [/summary] at most
    4 and [/search] at most 3, whatever the provider answers. *)
Theorem request_call_bounds (doc_id question query : string) (w : World) :
  (provider_calls (snd (ask_question doc_id question w)) <= provider_calls w + 7)%nat /\
  (provider_calls (snd (summarize doc_id w)) <= provider_calls w + 4)%nat /\
  (provider_calls (snd (search doc_id query w)) <= provider_calls w + 3)%nat.
Proof.
  split; [|split]; revert w.
  - unfold ask_question. apply (costs_bind _ _ 0 7); [apply costs_get_store|]. intros st.
    destruct (st !! doc_id) as [d|]; [|apply costs_not_found].
    apply costs_reraise.
    apply (costs_bind _ _ 3 4); [eapply costs_frame, frame_embed|]. intros ql.
    apply (costs_bind _ _ 0 4); [apply costs_liftR|]. intros qe.
    apply (costs_bind _ _ 0 4); [apply costs_liftR|]. intros tc.
    apply (costs_bind _ _ 4 0); [apply costs_generate|]. intros a.
    apply (costs_bind _ _ 0 0); [apply costs_liftR|]. intros x. apply costs_ret.
  - unfold summarize. apply (costs_bind _ _ 0 4); [apply costs_get_store|]. intros st.
    destruct (st !! doc_id) as [d|]; [|apply costs_not_found].
    apply costs_reraise.
    apply (costs_bind _ _ 4 0); [apply costs_generate|]. intros a.
    apply (costs_bind _ _ 0 0); [apply costs_liftR|]. intros x. apply costs_ret.
  - unfold search. apply (costs_bind _ _ 0 3); [apply costs_get_store|]. intros st.
    destruct (st !! doc_id) as [d|]; [|apply costs_not_found].
    apply costs_reraise.
    apply (costs_bind _ _ 3 0); [eapply costs_frame, frame_embed|]. intros ql.
    apply (costs_bind _ _ 0 0); [apply costs_liftR|]. intros qe.
    apply (costs_bind _ _ 0 0); [apply costs_liftR|]. intros tc. apply costs_ret.
Qed.

End Facts.

(** A provider that answers every embedding with 768 zeros. *)
Definition sample768 : Externals := {|
  PdfReader := fun _ => Ok [Extract.Page (Ok (Some "hello world"))];
  embed_content := fun _ _ => Ok (Some zero_vector);
  generate_content := fun _ _ => Ok "an answer";
  py_hash := fun s => Z.of_nat (String.length s);
  cosine := fun _ _ => 0%Q;
  to_f32 := fun x => x;
  uuid4 := Sample.sample_id
|}.

Lemma sample768_dim :
  forall n t v, @embed_content sample768 n t = Ok (Some v) -> length v = 768.
Proof. intros n t v [= <-]. reflexivity. Qed.

(** The state after one upload of ["a.pdf"]. *)
Definition w768 : World := snd (@upload_pdf sample768 "a.pdf" [] init_world).

Definition doc768 : Doc := MkDoc ["hello world"] [zero_vector].

Lemma w768_reachable : @reachable sample768 w768.
Proof. exact (@reach_step sample768 init_world (Upload "a.pdf" []) (reach_init)). Qed.

Lemma upload_success_record_witness :
  fst (@upload_pdf Sample.sample "a.pdf" [] init_world) = Ok (UploadResponse "u" 1) /\
  exists text d, Extract.extract_text_from_pdf (@PdfReader Sample.sample) (PyBytes []) = Ok text /\
    chunks d = Chunk.chunk_text text 400.
Proof.
  assert (Hok : fst (@upload_pdf Sample.sample "a.pdf" [] init_world)
                = Ok (UploadResponse "u" 1)) by reflexivity.
  split; [exact Hok|].
  destruct (@upload_success_record Sample.sample "a.pdf" [] init_world "u" 1 Hok)
    as (text & d & Hx & _ & _ & Hc & _).
  exists text, d. split; [exact Hx|exact Hc].
Defined.

Lemma reachable_cache_strings_witness :
  @reachable sample768 (snd (@summarize sample768 "u" w768)) /\
  forall key v, response_cache (snd (@summarize sample768 "u" w768)) !! key = Some v ->
    exists s, v = Some s.
Proof.
  assert (Hr : @reachable sample768 (snd (@summarize sample768 "u" w768)))
    by exact (@reach_step sample768 w768 (Summary "u") w768_reachable).
  split; [exact Hr|]. exact (@reachable_cache_strings sample768 _ Hr).
Defined.

Lemma summarize_stored_doc_witness :
  @reachable sample768 w768 /\ DOC_STORE w768 !! "u" = Some doc768 /\
  exists s, fst (@summarize sample768 "u" w768) = Ok (SummaryResponse (strip s)).
Proof.
  assert (Hd : DOC_STORE w768 !! "u" = Some doc768) by (vm_compute; reflexivity).
  split; [exact w768_reachable|]. split; [exact Hd|].
  destruct (@summarize_stored_doc sample768 w768 "u" doc768 w768_reachable Hd) as (s & _ & Hs).
  by exists s.
Defined.

Lemma upload_pdf_succeeds_witness :
  endswith (lower "a.pdf") ".pdf" = true /\
  Extract.extract_text_from_pdf (@PdfReader sample768) (PyBytes []) = Ok "hello world" /\
  fst (@upload_pdf sample768 "a.pdf" [] init_world) = Ok (UploadResponse "u" 1).
Proof.
  split; [reflexivity|]. split; [reflexivity|].
  apply (@upload_pdf_succeeds sample768 sample768_dim "a.pdf" [] init_world "hello world");
    [reflexivity|reflexivity|vm_compute; discriminate|vm_compute; discriminate].
Defined.

Lemma search_stored_doc_witness :
  @reachable sample768 w768 /\ DOC_STORE w768 !! "u" = Some doc768 /\
  exists hits, fst (@search sample768 "u" "hello" w768) = Ok (SearchResponse hits) /\
    length hits = 1%nat.
Proof.
  assert (Hd : DOC_STORE w768 !! "u" = Some doc768) by (vm_compute; reflexivity).
  split; [exact w768_reachable|]. split; [exact Hd|].
  destruct (@search_stored_doc sample768 sample768_dim w768 "u" "hello" doc768
              w768_reachable Hd) as (hits & Hh & Hl & _).
  exists hits. split; [exact Hh|]. rewrite Hl. reflexivity.
Defined.

Lemma ask_stored_doc_witness :
  @reachable sample768 w768 /\ DOC_STORE w768 !! "u" = Some doc768 /\
  exists a, fst (@ask_question sample768 "u" "what?" w768) = Ok (AskResponse a).
Proof.
  assert (Hd : DOC_STORE w768 !! "u" = Some doc768) by (vm_compute; reflexivity).
  split; [exact w768_reachable|]. split; [exact Hd|].
  exact (@ask_stored_doc sample768 sample768_dim w768 "u" "what?" doc768 w768_reachable Hd).
Defined.

Lemma reachable_store_size_witness :
  @reachable sample768 w768 /\ size (DOC_STORE w768) = 1%nat.
Proof.
  split; [exact w768_reachable|].
  exact (@reachable_store_size sample768 sample_id_inj w768 w768_reachable).
Defined.

End AppMore.

Module AltMore.
Import Py PyStr Backend Alt.

Lemma alt_upload_store `{Externals} (temp_name filename : string) (content : bytes)
    (w : AltWorld) :
  store (snd (upload_pdf temp_name filename content w)) = store w.
Proof. unfold upload_pdf. by destruct (negb _). Qed.

(** In the alternate service no [/upload] ever fills the store (each one
    is rejected or fails before [store.clear()]), so in every reachable
    state the store is empty and [/ask] and [/summary] answer HTTP 400
    "No PDF has been processed yet". *)
Theorem alt_never_ready `{Externals}
    (vs_search : VectorStore -> string -> Z -> list string)
    (ask_gemini : string -> string -> Result string)
    (summarize_text : string -> Result string) (w : AltWorld) (question : string) :
  alt_reachable w ->
  vs_chunks (store w) = [] /\
  ask_question_endpoint vs_search ask_gemini question w = PyErr not_ready_error /\
  summary_endpoint summarize_text w = PyErr not_ready_error.
Proof.
  intros Hr. assert (He : vs_chunks (store w) = []).
  { induction Hr as [files0|w t f c Hr IH]; [done|]. by rewrite alt_upload_store. }
  unfold ask_question_endpoint, summary_endpoint, vs_is_ready. rewrite He. done.
Qed.

Lemma alt_never_ready_witness :
  @alt_reachable Sample.sample
    (snd (@upload_pdf Sample.sample "/tmp/t.pdf" "r.pdf" [] (MkAltWorld vs_new ∅))) /\
  ask_question_endpoint (fun _ _ _ => []) (fun _ _ => Ok "x") "why?"
    (snd (@upload_pdf Sample.sample "/tmp/t.pdf" "r.pdf" [] (MkAltWorld vs_new ∅)))
  = PyErr not_ready_error.
Proof.
  assert (Hr : @alt_reachable Sample.sample
    (snd (@upload_pdf Sample.sample "/tmp/t.pdf" "r.pdf" [] (MkAltWorld vs_new ∅))))
    by exact (alt_step _ "/tmp/t.pdf" "r.pdf" [] (alt_init ∅)).
  split; [exact Hr|].
  exact (proj1 (proj2 (@alt_never_ready Sample.sample (fun _ _ _ => []) (fun _ _ => Ok "x")
                         (fun _ => Ok "y") _ "why?" Hr))).
Defined.

End AltMore.
